(** * Campaign controller of the WhatsApp bulk sender page

    A shallow embedding of the [Home] component of [src/app/page.tsx]
    (the variant that polls [/campaign-status]): its React state, the
    browser timers and pending network requests it owns, its handlers
    ([addLog], [handleFileSelected], [handleSendMessages],
    [startPollingStatus]) and its two effects.  Every handler run is one
    event-loop task: the clock reading does not change within it, and
    the effects run when its state updates are committed.  An [await]
    ends the task; the rest of the function is the task of the event
    that settles the request.  Unmounting the page is not modelled. *)

From Stdlib Require Import ZArith List String Ascii Bool Lia DecimalString.
From Stdlib Require Import DecimalZ Sorted.
Import ListNotations.
Open Scope string_scope.
Open Scope Z_scope.

(** ** JavaScript values *)

(** [Number.prototype.toString] on an integer. *)
Definition Number_toString (n : Z) : string :=
  NilZero.string_of_int (Z.to_int n).

(** [String.prototype.endsWith]. *)
Definition endsWith (s suffix : string) : bool :=
  let n := String.length s in
  let m := String.length suffix in
  (m <=? n)%nat && String.eqb (substring (n - m) m s) suffix.

(** [String.prototype.includes]. *)
Definition includes (s sub : string) : bool :=
  match index 0 sub s with Some _ => true | None => false end.

(** Interpolation [`${v}`] of a value that may be [undefined]. *)
Definition interpolate (v : option string) : string :=
  match v with Some s => s | None => "undefined" end.

(** Truthiness of an optional number: [undefined] and [0] are falsy. *)
Definition truthyNumber (v : option Z) : bool :=
  match v with Some n => negb (n =? 0) | None => false end.

(** Truthiness of an optional string: [undefined] and [''] are falsy. *)
Definition truthyString (v : option string) : bool :=
  match v with Some s => negb (String.eqb s EmptyString) | None => false end.

(** ** Data of the page *)

Inductive LogType := info | success | error | warning.

Record Log := mkLog {
  log_id : string;
  log_timestamp : string;
  log_message : string;
  log_type : LogType }.

Inductive ToastType := toastSuccess | toastError.

Record Toast := mkToast {
  toast_message : string;
  toast_type : option ToastType }.

Record File := mkFile {
  file_name : string;
  file_size : Z }.

Record CampaignStatus := mkCampaignStatus {
  cs_fileName : string;
  cs_status : string;
  cs_processed : option Z;
  cs_total : option Z;
  cs_successful : option Z;
  cs_failed : option Z;
  cs_successRate : option string }.

Definition TimerId := positive.

(** The [useState] cells of [Home]. *)
Record State := mkState {
  file : option File;
  logs : list Log;
  isLoading : bool;
  toast : Toast;
  campaignStatus : option CampaignStatus;
  pollingInterval : option TimerId;
  templateName : string }.

(** ** The browser around the component *)

(** The two callbacks the page hands to the timer API: the polling tick
    of [startPollingStatus], closed over [fileName] (its own handle
    [interval] is the timer's id), and the toast clearer. *)
Inductive Callback :=
| pollCallback (fileName : string)
| toastCallback.

Record Timer := mkTimer {
  timer_id : TimerId;
  timer_due : Z;
  timer_repeat : option Z;
  timer_callback : Callback }.

(** JSON body of a [/campaign-status] response. *)
Record StatusData := mkStatusData {
  data_status : string;
  data_processed : option Z;
  data_total : option Z;
  data_successful : option Z;
  data_failed : option Z;
  data_success_rate : option string }.

(** How the awaited [fetch] and [response.json()] of a tick settle:
    [fetch] rejects, or a response arrives whose [json()] yields a body
    or rejects ([None]). *)
Inductive StatusOutcome :=
| statusRejected
| statusResponse (ok : bool) (json : option StatusData).

(** JSON body of an [/upload-csv] response. *)
Record UploadData := mkUploadData {
  data_message : option string;
  data_detail : option string }.

(** How the awaited [fetch] and [response.json()] of a submission
    settle; a rejection carries the [message] of the thrown [Error]. *)
Inductive UploadOutcome :=
| uploadRejected (err : string)
| uploadResponse (ok : bool) (json : UploadData + string).

Inductive Request :=
| uploadRequest (f : File) (template_name : string)
| statusRequest (interval : TimerId) (fileName : string).

(** What a suspended [handleSendMessages] closes over: the [file],
    [templateName] and [pollingInterval] of the render it was created
    in. *)
Record Upload := mkUpload {
  up_id : nat;
  up_file : File;
  up_templateName : string;
  up_pollingInterval : option TimerId }.

(** A suspended tick of the polling callback. *)
Record Poll := mkPoll {
  poll_id : nat;
  poll_interval : TimerId;
  poll_fileName : string }.

Record World := mkWorld {
  st : State;
  now : Z;                         (* Date.now() *)
  timers : list Timer;             (* armed setInterval / setTimeout timers *)
  nextTimer : TimerId;
  pollingEffect : option TimerId;  (* pollingInterval held by the unmount effect's cleanup *)
  toastEffect : option TimerId;    (* timer held by the toast effect's cleanup *)
  toastChanged : bool;             (* setToast stored a new object since the last commit *)
  uploads : list Upload;
  polls : list Poll;
  nextRequest : nat;
  requests : list Request }.       (* network calls issued, newest first *)

(** ** Effectful code: a state monad over [World] *)

Definition Eff (A : Type) : Type := World -> A * World.

Definition ret {A} (a : A) : Eff A := fun w => (a, w).

Definition bind {A B} (m : Eff A) (k : A -> Eff B) : Eff B :=
  fun w => k (fst (m w)) (snd (m w)).

Declare Scope eff_scope.
Delimit Scope eff_scope with eff.
Notation "x <- m ;; k" := (bind m (fun x => k))
  (at level 61, m at next level, right associativity) : eff_scope.
Notation "m ;; k" := (bind m (fun _ => k))
  (at level 61, right associativity) : eff_scope.
Open Scope eff_scope.

Definition exec {A} (m : Eff A) (w : World) : World := snd (m w).

Definition modifyState (f : State -> State) : Eff unit := fun w =>
  (tt, mkWorld (f (st w)) (now w) (timers w) (nextTimer w) (pollingEffect w)
         (toastEffect w) (toastChanged w) (uploads w) (polls w)
         (nextRequest w) (requests w)).

Definition modifyTimers (f : list Timer -> list Timer) : Eff unit := fun w =>
  (tt, mkWorld (st w) (now w) (f (timers w)) (nextTimer w) (pollingEffect w)
         (toastEffect w) (toastChanged w) (uploads w) (polls w)
         (nextRequest w) (requests w)).

(** *** [useState] setters *)

Definition setFile (f : option File) : Eff unit :=
  modifyState (fun s => mkState f (logs s) (isLoading s) (toast s)
                          (campaignStatus s) (pollingInterval s) (templateName s)).

Definition setLogs (f : list Log -> list Log) : Eff unit :=
  modifyState (fun s => mkState (file s) (f (logs s)) (isLoading s) (toast s)
                          (campaignStatus s) (pollingInterval s) (templateName s)).

Definition setIsLoading (b : bool) : Eff unit :=
  modifyState (fun s => mkState (file s) (logs s) b (toast s)
                          (campaignStatus s) (pollingInterval s) (templateName s)).

Definition setCampaignStatus (c : option CampaignStatus) : Eff unit :=
  modifyState (fun s => mkState (file s) (logs s) (isLoading s) (toast s)
                          c (pollingInterval s) (templateName s)).

Definition setPollingInterval (p : option TimerId) : Eff unit :=
  modifyState (fun s => mkState (file s) (logs s) (isLoading s) (toast s)
                          (campaignStatus s) p (templateName s)).

Definition setTemplateName (t : string) : Eff unit :=
  modifyState (fun s => mkState (file s) (logs s) (isLoading s) (toast s)
                          (campaignStatus s) (pollingInterval s) t).

(** Every call stores a fresh object, so the toast effect's dependency
    changes even when the fields are equal. *)
Definition setToast (t : Toast) : Eff unit := fun w =>
  (tt, mkWorld (mkState (file (st w)) (logs (st w)) (isLoading (st w)) t
                  (campaignStatus (st w)) (pollingInterval (st w))
                  (templateName (st w)))
         (now w) (timers w) (nextTimer w) (pollingEffect w)
         (toastEffect w) true (uploads w) (polls w)
         (nextRequest w) (requests w)).

(** *** Clock and timers *)

Definition Date_now : Eff Z := fun w => (now w, w).

Definition armTimer (delay : Z) (rep : option Z) (cb : Callback) : Eff TimerId :=
  fun w =>
  (nextTimer w,
   mkWorld (st w) (now w)
     (mkTimer (nextTimer w) (now w + delay) rep cb :: timers w)
     (Pos.succ (nextTimer w)) (pollingEffect w)
     (toastEffect w) (toastChanged w) (uploads w) (polls w)
     (nextRequest w) (requests w)).

Definition setInterval (cb : Callback) (delay : Z) : Eff TimerId :=
  armTimer delay (Some delay) cb.

Definition setTimeout (cb : Callback) (delay : Z) : Eff TimerId :=
  armTimer delay None cb.

Definition clearTimer (t : TimerId) : Eff unit :=
  modifyTimers (filter (fun x => negb (Pos.eqb (timer_id x) t))).

Definition clearInterval := clearTimer.
Definition clearTimeout := clearTimer.

Definition sameTimer (a b : option TimerId) : bool :=
  match a, b with
  | Some x, Some y => Pos.eqb x y
  | None, None => true
  | _, _ => false
  end.

(** *** Network *)

Definition fetchUpload (f : File) (template_name : string)
    (closurePolling : option TimerId) : Eff unit := fun w =>
  (tt, mkWorld (st w) (now w) (timers w) (nextTimer w) (pollingEffect w)
         (toastEffect w) (toastChanged w)
         (mkUpload (nextRequest w) f template_name closurePolling :: uploads w)
         (polls w) (S (nextRequest w))
         (uploadRequest f template_name :: requests w)).

Definition fetchStatus (interval : TimerId) (fileName : string) : Eff unit :=
  fun w =>
  (tt, mkWorld (st w) (now w) (timers w) (nextTimer w) (pollingEffect w)
         (toastEffect w) (toastChanged w) (uploads w)
         (mkPoll (nextRequest w) interval fileName :: polls w)
         (S (nextRequest w))
         (statusRequest interval fileName :: requests w)).

(** One rendering of a clock reading as a time of day, [HH:MM:SS] in
    UTC, to run the model on. *)
Definition twoDigits (n : Z) : string :=
  (if n <? 10 then "0" else EmptyString) ++ Number_toString n.

Definition utcTimeString (t : Z) : string :=
  twoDigits ((t / 3600000) mod 24) ++ ":" ++
  twoDigits ((t / 60000) mod 60) ++ ":" ++
  twoDigits ((t / 1000) mod 60).

(** * The attachments variant of the page

    The other [Home] of [src/app/page.tsx]: a CSV input, a list of
    attachments, a simulated processing run and a simulated send.  Its
    notifications go through [useToast]; the calls are recorded, newest
    first. *)

Module AttachmentsPage.

Record Notice := mkNotice {
  title : string;
  description : string;
  destructive : bool }.

Record Page := mkPage {
  file : option File;
  attachments : list File;
  uploading : bool;
  uploadProgress : Z;
  isSending : bool;
  intervals : nat;             (* armed progress intervals of handleUpload *)
  sending : list nat;          (* pending timeouts of handleSendMessages, each
                                  with the attachments.length it closed over *)
  notices : list Notice }.     (* calls of toast, newest first *)

Definition toast (n : Notice) (p : Page) : Page :=
  mkPage (file p) (attachments p) (uploading p) (uploadProgress p) (isSending p)
    (intervals p) (sending p) (n :: notices p).

Definition setFile (f : option File) (p : Page) : Page :=
  mkPage f (attachments p) (uploading p) (uploadProgress p) (isSending p)
    (intervals p) (sending p) (notices p).

Definition setAttachments (f : list File -> list File) (p : Page) : Page :=
  mkPage (file p) (f (attachments p)) (uploading p) (uploadProgress p)
    (isSending p) (intervals p) (sending p) (notices p).

(** [e.target.files?.[0] || null] *)
Definition firstFile (files : option (list File)) : option File :=
  match files with
  | Some (f :: _) => Some f
  | _ => None
  end.

Definition handleFileChange (files : option (list File)) (p : Page) : Page :=
  match firstFile files with
  | Some selectedFile =>
      if negb (endsWith (file_name selectedFile) ".csv") then
        toast (mkNotice "Invalid file type" "Please upload a CSV file" true) p
      else setFile (Some selectedFile) p
  | None => setFile None p
  end.

(** [files.reduce((acc, file) => acc + file.size, 0)]; sizes are whole
    numbers of bytes, added exactly as long as the sum stays below 2^53. *)
Definition totalSize (files : list File) : Z :=
  fold_left (fun acc file => acc + file_size file) files 0.

Definition handleAttachmentChange (selectedFiles : option (list File))
    (p : Page) : Page :=
  match selectedFiles with
  | None => p
  | Some [] => p
  | Some newAttachments =>
      if totalSize (attachments p ++ newAttachments) >? 20 * 1024 * 1024 then
        toast (mkNotice "Attachments too large"
                 "Total attachment size cannot exceed 20MB" true) p
      else
        toast (mkNotice "Attachments added"
                 ("Added "
                  ++ Number_toString (Z.of_nat (List.length newAttachments))
                  ++ " attachment(s)") false)
          (setAttachments (fun prev => prev ++ newAttachments)%list p)
  end.

(** [l.filter((_, i) => keep(i))], counting from [i]. *)
Fixpoint filterIndex {A} (keep : nat -> bool) (i : nat) (l : list A) : list A :=
  match l with
  | [] => []
  | a :: l' =>
      if keep i then a :: filterIndex keep (S i) l'
      else filterIndex keep (S i) l'
  end.

Definition removeAttachment (index : nat) (p : Page) : Page :=
  setAttachments (filterIndex (fun i => negb (Nat.eqb i index)) 0) p.

Definition handleUpload (p : Page) : Page :=
  match file p with
  | None =>
      toast (mkNotice "No file selected" "Please select a CSV file first" true) p
  | Some _ =>
      mkPage (file p) (attachments p) true 0 (isSending p)
        (S (intervals p)) (sending p) (notices p)
  end.

(** One firing of an armed progress interval: its callback runs
    [setUploadProgress] with the updater that stops the run at 100. *)
Definition progressTick (p : Page) : Page :=
  match intervals p with
  | O => p
  | S n =>
      if uploadProgress p >=? 100 then
        toast (mkNotice "File processed"
                 "Your CSV file has been processed successfully" false)
          (mkPage (file p) (attachments p) false 100 (isSending p)
             n (sending p) (notices p))
      else
        mkPage (file p) (attachments p) (uploading p) (uploadProgress p + 10)
          (isSending p) (intervals p) (sending p) (notices p)
  end.

Definition handleSendMessages (p : Page) : Page :=
  match file p with
  | None =>
      toast (mkNotice "No file processed"
               "Please upload and process a CSV file first" true) p
  | Some _ =>
      mkPage (file p) (attachments p) (uploading p) (uploadProgress p) true
        (intervals p) (sending p ++ [List.length (attachments p)]) (notices p)
  end.

(** The oldest pending timeout of [handleSendMessages] fires. *)
Definition sendTimeout (p : Page) : Page :=
  match sending p with
  | [] => p
  | n :: rest =>
      toast (mkNotice "Messages queued"
               ((if (0 <? n)%nat then "Messages with attachments" else "Messages")
                ++ " have been queued for sending") false)
        (mkPage (file p) (attachments p) (uploading p) (uploadProgress p) false
           (intervals p) rest (notices p))
  end.

Inductive Event :=
| fileChange (files : option (list File))
| attachmentChange (files : option (list File))
| removeClick (index : nat)
| uploadClick
| progressFired
| sendClick
| sendFired.

Definition step (p : Page) (e : Event) : Page :=
  match e with
  | fileChange files => handleFileChange files p
  | attachmentChange files => handleAttachmentChange files p
  | removeClick index => removeAttachment index p
  | uploadClick => handleUpload p
  | progressFired => progressTick p
  | sendClick => handleSendMessages p
  | sendFired => sendTimeout p
  end.

Definition run (p : Page) (es : list Event) : Page := fold_left step es p.

Definition init : Page := mkPage None [] false 0 false O [] [].

(** The attachments an event brings in. *)
Definition offered (e : Event) : list File :=
  match e with
  | attachmentChange (Some files) => files
  | _ => []
  end.

(** *** [getFileIcon] *)

Inductive Icon := picture | pdf | document | sheet | video | audio | clip.

Definition lowerAscii (c : ascii) : ascii :=
  let n := nat_of_ascii c in
  if (65 <=? n)%nat && (n <=? 90)%nat then ascii_of_nat (n + 32) else c.

(** [String.prototype.toLowerCase] on the ASCII letters; a name is held as
    its bytes, and no character outside ASCII lowers to a letter that
    occurs in the extension lists of [getFileIcon]. *)
Fixpoint toLowerCase (s : string) : string :=
  match s with
  | EmptyString => EmptyString
  | String c s' => String (lowerAscii c) (toLowerCase s')
  end.

(** [s.split('.')] *)
Fixpoint split (s : string) : list string :=
  match s with
  | EmptyString => [EmptyString]
  | String c s' =>
      if Ascii.eqb c "."%char then EmptyString :: split s'
      else match split s' with
           | seg :: rest => String c seg :: rest
           | [] => [String c EmptyString]
           end
  end.

(** [Array.prototype.pop]'s result. *)
Fixpoint pop (l : list string) : option string :=
  match l with
  | [] => None
  | [a] => Some a
  | _ :: l' => pop l'
  end.

(** [list.includes(extension || '')] *)
Definition hasExtension (list : list string) (extension : option string) : bool :=
  existsb (String.eqb (match extension with Some e => e | None => EmptyString end))
    list.

Definition getFileIcon (fileName : string) : Icon :=
  let extension := option_map toLowerCase (pop (split fileName)) in
  if hasExtension ["jpg"; "jpeg"; "png"; "gif"; "webp"] extension then picture
  else if hasExtension ["pdf"] extension then pdf
  else if hasExtension ["doc"; "docx"] extension then document
  else if hasExtension ["xls"; "xlsx"; "csv"] extension then sheet
  else if hasExtension ["mp4"; "mov"; "avi"] extension then video
  else if hasExtension ["mp3"; "wav"; "ogg"] extension then audio
  else clip.

(** *** Sample data *)

Definition campaign : File := mkFile "campaign.csv" 2048.
Definition banner : File := mkFile "banner.PNG" 15000000.
Definition film : File := mkFile "film.mp4" 9000000.

End AttachmentsPage.

Section Controller.

(** [Date.prototype.toLocaleTimeString] depends on the locale and time
    zone of the browser. *)
Variable toLocaleTimeString : Z -> string.

(** ** Handlers of [Home] *)

Definition addLog (message : string) (type : LogType) : Eff unit :=
  t <- Date_now ;;
  let newLog := mkLog (Number_toString t) (toLocaleTimeString t) message type in
  setLogs (fun prevLogs => newLog :: prevLogs).

Definition handleFileSelected (selectedFile : File) : Eff unit :=
  if negb (endsWith (file_name selectedFile) ".csv") then
    setToast (mkToast "Please upload a CSV file" (Some toastError))
  else
    setFile (Some selectedFile) ;;
    addLog ("File selected: " ++ file_name selectedFile) info.

(** [handleSendMessages] up to its awaited [fetch], in a render whose
    state is [s]; the rest of the function is
    [handleSendMessagesSettled]. *)
Definition handleSendMessages (s : State) : Eff unit :=
  match file s with
  | None =>
      setToast (mkToast "Please select a CSV file first" (Some toastError))
  | Some f =>
      setIsLoading true ;;
      addLog "Uploading file and starting campaign..." info ;;
      fetchUpload f (templateName s) (pollingInterval s)
  end.

(** [// Clear any existing polling] *)
Definition clearExistingPolling (closurePolling : option TimerId) : Eff unit :=
  match closurePolling with
  | Some p => clearInterval p
  | None => ret tt
  end.

(** [startPollingStatus] inside the closure of a render whose
    [pollingInterval] was [closurePolling]. *)
Definition startPollingStatus (closurePolling : option TimerId)
    (fileName : string) : Eff unit :=
  clearExistingPolling closurePolling ;;
  addLog "Checking campaign status..." info ;;
  interval <- setInterval (pollCallback fileName) 5000 ;;
  setPollingInterval (Some interval).

(** What the awaits of [handleSendMessages] hand to the rest of its
    [try] block: the parsed body, or the message of the [Error] thrown
    before any state is touched ([fetch] or [response.json()] rejecting,
    or [throw new Error(data.detail || 'Error sending messages')]). *)
Definition uploadAwaited (o : UploadOutcome) : UploadData + string :=
  match o with
  | uploadRejected err => inr err
  | uploadResponse _ (inr err) => inr err
  | uploadResponse false (inl data) =>
      inr (if truthyString (data_detail data)
           then interpolate (data_detail data)
           else "Error sending messages")
  | uploadResponse true (inl data) => inl data
  end.

(** The body of [handleSendMessages] after its awaits. *)
Definition handleSendMessagesSettled (u : Upload) (o : UploadOutcome) : Eff unit :=
  match uploadAwaited o with
  | inl data =>
      addLog ("Campaign started: " ++ interpolate (data_message data)) success ;;
      setToast (mkToast "Campaign started successfully" (Some toastSuccess)) ;;
      startPollingStatus (up_pollingInterval u) (file_name (up_file u)) ;;
      setCampaignStatus
        (Some (mkCampaignStatus (file_name (up_file u)) "processing"
                 None None None None None))
  | inr message =>
      addLog ("Error: " ++ message) error ;;
      setToast (mkToast "Failed to start campaign" (Some toastError))
  end ;;
  setIsLoading false.

(** The interval callback up to its awaited [fetch]. *)
Definition pollTick (interval : TimerId) (fileName : string) : Eff unit :=
  fetchStatus interval fileName.

(** What the awaits of a tick hand to the rest of its [try] block: the
    parsed body, or nothing when [fetch] or [response.json()] rejects
    or the response is not ok. *)
Definition statusAwaited (o : StatusOutcome) : option StatusData :=
  match o with
  | statusRejected => None
  | statusResponse false _ => None
  | statusResponse true json => json
  end.

(** The interval callback after its awaits. *)
Definition pollTickSettled (p : Poll) (o : StatusOutcome) : Eff unit :=
  match statusAwaited o with
  | Some data =>
      setCampaignStatus
        (Some (mkCampaignStatus (poll_fileName p) (data_status data)
                 (data_processed data) (data_total data)
                 (data_successful data) (data_failed data)
                 (data_success_rate data))) ;;
      if String.eqb (data_status data) "completed" then
        addLog ("Campaign completed. Success rate: "
                ++ interpolate (data_success_rate data)) success ;;
        clearInterval (poll_interval p) ;;
        setPollingInterval None
      else if truthyNumber (data_processed data) && truthyNumber (data_total data) then
        addLog ("Progress: "
                ++ interpolate (option_map Number_toString (data_processed data))
                ++ "/"
                ++ interpolate (option_map Number_toString (data_total data))
                ++ " contacts processed") info
      else ret tt
  | None => addLog "Error checking campaign status" error
  end.

(** The toast timer's callback. *)
Definition toastTimerFired : Eff unit :=
  setToast (mkToast EmptyString None).

(** ** Effects, run when a task's updates are committed *)

(** [useEffect(() => () => { if (pollingInterval) clearInterval(pollingInterval) },
    [pollingInterval])]: when the dependency changed, the cleanup of
    the previous run fires with the value it closed over. *)
Definition pollingCleanupEffect : Eff unit := fun w =>
  if sameTimer (pollingInterval (st w)) (pollingEffect w) then (tt, w)
  else
    let w1 := exec (clearExistingPolling (pollingEffect w)) w in
    (tt, mkWorld (st w1) (now w1) (timers w1) (nextTimer w1)
           (pollingInterval (st w1))
           (toastEffect w1) (toastChanged w1) (uploads w1) (polls w1)
           (nextRequest w1) (requests w1)).

(** [useEffect(() => { if (toast.type) { const timer = setTimeout(..., 3000);
    return () => clearTimeout(timer) } }, [toast])]. *)
Definition toastClearEffect : Eff unit := fun w =>
  if toastChanged w then
    let w1 := exec (match toastEffect w with
                    | Some timer => clearTimeout timer
                    | None => ret tt
                    end) w in
    let r := match toast_type (toast (st w1)) with
             | Some _ =>
                 let a := setTimeout toastCallback 3000 w1 in
                 (Some (fst a), snd a)
             | None => (None, w1)
             end in
    let w2 := snd r in
    (tt, mkWorld (st w2) (now w2) (timers w2) (nextTimer w2)
           (pollingEffect w2) (fst r) false (uploads w2) (polls w2)
           (nextRequest w2) (requests w2))
  else (tt, w).

Definition commit : Eff unit :=
  pollingCleanupEffect ;; toastClearEffect.

(** ** The event loop *)

Inductive Event :=
| selectFile (f : File)                       (* FileUpload calls onFileSelected *)
| changeTemplateName (t : string)             (* the template input's onChange *)
| clickSend                                   (* a click on the send button *)
| uploadSettled (id : nat) (o : UploadOutcome)
| timerFired (t : TimerId)
| statusSettled (id : nat) (o : StatusOutcome)
| elapse (d : N).                             (* the clock advances by d ms *)

(** Modelled from the spec: the [Button] component
    ([src/components/Button]) is not among the sources.  The page
    passes it [disabled={!file || isLoading}]; as the spec's busy flag
    that gates the submit action, a disabled button delivers no
    click. *)
Definition sendDisabled (s : State) : bool :=
  match file s with None => true | Some _ => isLoading s end.

Definition resumeUpload (id : nat) : Eff (option Upload) := fun w =>
  (find (fun u => Nat.eqb (up_id u) id) (uploads w),
   mkWorld (st w) (now w) (timers w) (nextTimer w) (pollingEffect w)
     (toastEffect w) (toastChanged w)
     (filter (fun u => negb (Nat.eqb (up_id u) id)) (uploads w))
     (polls w) (nextRequest w) (requests w)).

Definition resumePoll (id : nat) : Eff (option Poll) := fun w =>
  (find (fun p => Nat.eqb (poll_id p) id) (polls w),
   mkWorld (st w) (now w) (timers w) (nextTimer w) (pollingEffect w)
     (toastEffect w) (toastChanged w) (uploads w)
     (filter (fun p => negb (Nat.eqb (poll_id p) id)) (polls w))
     (nextRequest w) (requests w)).

Definition advanceClock (d : N) : Eff unit := fun w =>
  (tt, mkWorld (st w) (now w + Z.of_N d) (timers w) (nextTimer w)
         (pollingEffect w) (toastEffect w) (toastChanged w) (uploads w)
         (polls w) (nextRequest w) (requests w)).

Definition postpone (period : Z) (t : TimerId) (x : Timer) : Timer :=
  if Pos.eqb (timer_id x) t
  then mkTimer (timer_id x) (timer_due x + period) (timer_repeat x) (timer_callback x)
  else x.

(** An interval timer is re-armed one period later, a timeout is
    spent. *)
Definition rearm (t : Timer) : Eff unit :=
  match timer_repeat t with
  | Some period => modifyTimers (map (postpone period (timer_id t)))
  | None => clearTimer (timer_id t)
  end.

Definition runCallback (t : Timer) : Eff unit :=
  match timer_callback t with
  | pollCallback fileName => pollTick (timer_id t) fileName
  | toastCallback => toastTimerFired
  end.

Definition dueTimer (t : TimerId) (w : World) : option Timer :=
  match find (fun x => Pos.eqb (timer_id x) t) (timers w) with
  | Some x => if timer_due x <=? now w then Some x else None
  | None => None
  end.

(** The task an event runs. *)
Definition task (e : Event) : Eff unit := fun w =>
  match e with
  | selectFile f => handleFileSelected f w
  | changeTemplateName t => setTemplateName t w
  | clickSend =>
      if sendDisabled (st w) then (tt, w) else handleSendMessages (st w) w
  | uploadSettled id o =>
      (r <- resumeUpload id ;;
       match r with
       | Some u => handleSendMessagesSettled u o
       | None => ret tt
       end) w
  | timerFired t =>
      match dueTimer t w with
      | Some x => (rearm x ;; runCallback x) w
      | None => (tt, w)
      end
  | statusSettled id o =>
      (r <- resumePoll id ;;
       match r with
       | Some p => pollTickSettled p o
       | None => ret tt
       end) w
  | elapse d => advanceClock d w
  end.

Definition step (w : World) (e : Event) : World :=
  exec (task e ;; commit) w.

Definition run (w : World) (es : list Event) : World :=
  fold_left step es w.

Definition initialState : State :=
  mkState None [] false (mkToast EmptyString None) None None "scalixity_marketing_2".

(** The page once mounted at clock reading [t0]. *)
Definition init (t0 : Z) : World :=
  mkWorld initialState t0 [] 1%positive None None false [] [] O [].

Inductive reachable : World -> Prop :=
| reachable_init : forall t0, reachable (init t0)
| reachable_step : forall w e, reachable w -> reachable (step w e).

(** ** Observations *)

Definition isPoller (t : Timer) : bool :=
  match timer_callback t with
  | pollCallback _ => true
  | toastCallback => false
  end.

(** The polling loops that are armed. *)
Definition pollers (w : World) : list Timer := filter isPoller (timers w).

(** The armed auto-clear timers of the toast. *)
Definition toastTimers (w : World) : list Timer :=
  filter (fun t => negb (isPoller t)) (timers w).

(** [{toast.type && <ToastContainer><Toast .../></ToastContainer>}] *)
Definition visibleToasts (s : State) : list Toast :=
  match toast_type (toast s) with
  | Some _ => [toast s]
  | None => []
  end.





(** The events that reach [startPollingStatus]: an acknowledged
    submission. *)
Definition startsPolling (e : Event) : bool :=
  match e with
  | uploadSettled _ o =>
      match uploadAwaited o with inl _ => true | inr _ => false end
  | _ => false
  end.


(** A run of log-producing events: each waits [d] ms and then calls
    [addLog]. *)
Fixpoint appendLogs (es : list (N * (string * LogType))) : Eff unit :=
  match es with
  | [] => ret tt
  | (d, (message, type)) :: es' =>
      advanceClock d ;; addLog message type ;; appendLogs es'
  end.

(** The entries such a run creates from clock reading [t], oldest
    first. *)
Fixpoint createdLogs (t : Z) (es : list (N * (string * LogType))) : list Log :=
  match es with
  | [] => []
  | (d, (message, type)) :: es' =>
      mkLog (Number_toString (t + Z.of_N d)) (toLocaleTimeString (t + Z.of_N d))
        message type
      :: createdLogs (t + Z.of_N d) es'
  end.

(** A notification is shown by a task that calls [setToast]; the toast
    effect runs when the task commits. *)
Definition showToast (message : string) (type : ToastType) (w : World) : World :=
  exec (setToast (mkToast message (Some type)) ;; commit) w.

(** ** Invariants of the event loop *)

(** At most one submission is in flight, the loading flag is up while
    it is, and every armed polling loop is the one its closure holds. *)
Definition uploadInv (us : list Upload) (loading : bool) (ts : list Timer) : Prop :=
  match us with
  | [] => True
  | [u] => loading = true
           /\ forall t, In t ts -> isPoller t = true ->
                up_pollingInterval u = Some (timer_id t)
  | _ :: _ :: _ => False
  end.

Arguments uploadInv : simpl never.
Arguments sameTimer : simpl never.
Arguments postpone : simpl never.

(** What holds while a task runs, before its updates are committed. *)
Record TaskInv (w : World) : Prop := mkTaskInv {
  fresh_timers : forall t, In t (timers w) -> (timer_id t < nextTimer w)%positive;
  fresh_polling : forall i,
    pollingInterval (st w) = Some i -> (i < nextTimer w)%positive;
  fresh_pollingEffect : forall i,
    pollingEffect w = Some i -> (i < nextTimer w)%positive;
  fresh_toastEffect : forall i,
    toastEffect w = Some i -> (i < nextTimer w)%positive;
  fresh_polls : forall p, In p (polls w) -> (poll_interval p < nextTimer w)%positive;
  distinct_timers : NoDup (map timer_id (timers w));
  poller_known : forall t, In t (timers w) -> isPoller t = true ->
    pollingInterval (st w) = Some (timer_id t)
    \/ pollingEffect w = Some (timer_id t);
  toast_known : forall t, In t (timers w) -> isPoller t = false ->
    toastEffect w = Some (timer_id t);
  one_upload : uploadInv (uploads w) (isLoading (st w)) (timers w) }.

(** What holds between tasks. *)
Record Inv (w : World) : Prop := mkInv {
  task_inv : TaskInv w;
  committed_toast : toastChanged w = false;
  committed_polling : pollingEffect w = pollingInterval (st w) }.

(** ** Further invariants of the event loop *)

(** The file name a request is about. *)
Definition requestFile (r : Request) : string :=
  match r with
  | uploadRequest f _ => file_name f
  | statusRequest _ fileName => fileName
  end.

Definition csvName (name : string) : Prop := endsWith name ".csv" = true.

(** Every file name the page holds or has sent passed the check of
    [handleFileSelected]. *)
Record CsvInv (w : World) : Prop := mkCsvInv {
  csv_file : forall f, file (st w) = Some f -> csvName (file_name f);
  csv_uploads : forall u, In u (uploads w) -> csvName (file_name (up_file u));
  csv_timers : forall t fileName, In t (timers w) ->
    timer_callback t = pollCallback fileName -> csvName fileName;
  csv_polls : forall p, In p (polls w) -> csvName (poll_fileName p);
  csv_requests : forall r, In r (requests w) -> csvName (requestFile r);
  csv_status : forall c, campaignStatus (st w) = Some c -> csvName (cs_fileName c) }.

(** Polling loops repeat every 5000 ms, toast timers fire once. *)
Record ShapeInv (w : World) : Prop := mkShapeInv {
  poller_period : forall t, In t (timers w) -> isPoller t = true ->
    timer_repeat t = Some 5000;
  toast_oneshot : forall t, In t (timers w) -> isPoller t = false ->
    timer_repeat t = None }.

(** [i] is held as an interval handle somewhere: in the state, in the
    cleanup of the unmount effect, or in the closure of a suspended
    tick or submission. *)
Definition isHandle (i : TimerId) (w : World) : Prop :=
  pollingInterval (st w) = Some i
  \/ pollingEffect w = Some i
  \/ (exists p, In p (polls w) /\ poll_interval p = i)
  \/ (exists u, In u (uploads w) /\ up_pollingInterval u = Some i).

(** The handles name what they should: no interval handle is the toast
    timer, the state's handle names an armed loop, and the toast slot
    is filled exactly while its timer is armed (once the task's update
    of the slot is committed). *)
Record ArmedInv (w : World) : Prop := mkArmedInv {
  fresh_uploads : forall u c, In u (uploads w) ->
    up_pollingInterval u = Some c -> (c < nextTimer w)%positive;
  handle_not_toast : forall i, isHandle i w -> toastEffect w <> Some i;
  handle_armed : forall i, pollingInterval (st w) = Some i ->
    exists t, In t (timers w) /\ timer_id t = i /\ isPoller t = true;
  toast_armed : toastChanged w = false ->
    match toast_type (toast (st w)) with
    | Some _ => exists t, In t (timers w) /\ toastEffect w = Some (timer_id t)
                          /\ isPoller t = false /\ timer_due t <= now w + 3000
    | None => toastEffect w = None
    end }.

(** The toasts the handlers and the toast timer construct. *)
Definition toastTexts : list Toast :=
  [mkToast EmptyString None;
   mkToast "Please upload a CSV file" (Some toastError);
   mkToast "Please select a CSV file first" (Some toastError);
   mkToast "Campaign started successfully" (Some toastSuccess);
   mkToast "Failed to start campaign" (Some toastError)].

(** Unmounting [Home] runs the cleanups of its two effects. *)
Definition unmount : Eff unit := fun w =>
  (clearExistingPolling (pollingEffect w) ;;
   match toastEffect w with
   | Some timer => clearTimeout timer
   | None => ret tt
   end) w.

(** The events that resume a suspended [handleSendMessages]. *)
Definition settlesUpload (e : Event) : bool :=
  match e with
  | uploadSettled _ _ => true
  | _ => false
  end.

(** ** Sample data *)

Definition contacts : File := mkFile "contacts.csv" 2048.
Definition notes : File := mkFile "notes.txt" 512.

Definition queued : UploadOutcome :=
  uploadResponse true (inl (mkUploadData (Some "queued") None)).

Definition invalidFormat : UploadOutcome :=
  uploadResponse false (inl (mkUploadData None (Some "Invalid file format"))).

Definition progress (processed total : Z) : StatusOutcome :=
  statusResponse true
    (Some (mkStatusData "processing" (Some processed) (Some total) None None None)).


(** A status response that is not ok, with a body that would report
    completion. *)
Definition serverError : StatusOutcome :=
  statusResponse false
    (Some (mkStatusData "completed" None None None None (Some "95%"))).

(** The page after [contacts.csv] was selected and sent. *)
Definition uploading : World :=
  run (init 1000) [selectFile contacts; clickSend].

(** ... and the backend acknowledged the campaign. *)
Definition polling : World :=
  run uploading [uploadSettled 0 queued].

(** ... and the first tick fired five seconds later. *)
Definition ticking : World :=
  run polling [elapse 5000; timerFired 1%positive].

(** The page when, with the loop of [polling] running, Send was pressed
    again two seconds ago. *)
Definition resending : World :=
  run polling [clickSend; elapse 2000].

(** * Properties *)

(** ** Strings *)

Lemma substring_all (s : string) : substring 0 (String.length s) s = s.
Proof.
  induction s as [|c s IH]; cbn; [reflexivity|]. rewrite IH. reflexivity.
Qed.

Lemma length_append (p s : string) :
  String.length (p ++ s) = (String.length p + String.length s)%nat.
Proof.
  induction p as [|c p IH]; cbn; [reflexivity|]. rewrite IH. reflexivity.
Qed.

Lemma substring_suffix (p s : string) :
  substring (String.length p) (String.length s) (p ++ s) = s.
Proof.
  induction p as [|c p IH]; cbn; [apply substring_all|exact IH].
Qed.

Lemma split_at (s : string) : forall k : nat,
  (k <= String.length s)%nat ->
  s = substring 0 k s ++ substring k (String.length s - k) s.
Proof.
  induction s as [|c s IH]; intros [|k] Hk; cbn in *; try lia; try reflexivity.
  - rewrite substring_all. reflexivity.
  - rewrite <- IH by lia. reflexivity.
Qed.

(** [endsWith] holds exactly of the strings that end with the
    suffix. *)
Lemma endsWith_spec (s suffix : string) :
  endsWith s suffix = true <-> exists p, s = p ++ suffix.
Proof.
  unfold endsWith. split.
  - intros H. apply andb_prop in H as [Hle Heq].
    apply Nat.leb_le in Hle. apply String.eqb_eq in Heq.
    exists (substring 0 (String.length s - String.length suffix) s).
    pose proof (split_at s (String.length s - String.length suffix)) as Hs.
    replace (String.length s - (String.length s - String.length suffix))%nat
      with (String.length suffix) in Hs by lia.
    rewrite Heq in Hs. apply Hs. lia.
  - intros [p ->]. rewrite length_append.
    apply andb_true_intro. split; [apply Nat.leb_le; lia|].
    replace (String.length p + String.length suffix - String.length suffix)%nat
      with (String.length p) by lia.
    rewrite substring_suffix. apply String.eqb_refl.
Qed.

(** ** File selection *)

(** C5: a candidate whose name does not end in [.csv] changes nothing
    but the toast slot, which receives one error notification (the
    selected file and the log are as before); a name ending in [.csv]
    replaces the selected file and puts one info entry naming the file
    at the head of the log, with everything else as before. *)
Theorem handleFileSelected_selects_or_rejects (f : File) (w : World) :
  exec (handleFileSelected f) w =
  if endsWith (file_name f) ".csv" then
    mkWorld
      (mkState (Some f)
         (mkLog (Number_toString (now w)) (toLocaleTimeString (now w))
            ("File selected: " ++ file_name f) info :: logs (st w))
         (isLoading (st w)) (toast (st w)) (campaignStatus (st w))
         (pollingInterval (st w)) (templateName (st w)))
      (now w) (timers w) (nextTimer w) (pollingEffect w) (toastEffect w)
      (toastChanged w) (uploads w) (polls w) (nextRequest w) (requests w)
  else
    mkWorld
      (mkState (file (st w)) (logs (st w)) (isLoading (st w))
         (mkToast "Please upload a CSV file" (Some toastError))
         (campaignStatus (st w)) (pollingInterval (st w)) (templateName (st w)))
      (now w) (timers w) (nextTimer w) (pollingEffect w) (toastEffect w)
      true (uploads w) (polls w) (nextRequest w) (requests w).
Proof.
  unfold exec, handleFileSelected.
  destruct (endsWith (file_name f) ".csv"); reflexivity.
Qed.

(** ** Submission *)

(** C9: [handleSendMessages] run in a render with no selected file
    stores the error notification and does nothing else: no request is
    issued, no submission is left pending, and the log, the campaign
    status, the loading flag, the polling handle and the timers are as
    before. *)
Theorem handleSendMessages_without_file (s : State) (w : World) :
  file s = None ->
  exec (handleSendMessages s) w =
  mkWorld
    (mkState (file (st w)) (logs (st w)) (isLoading (st w))
       (mkToast "Please select a CSV file first" (Some toastError))
       (campaignStatus (st w)) (pollingInterval (st w)) (templateName (st w)))
    (now w) (timers w) (nextTimer w) (pollingEffect w) (toastEffect w)
    true (uploads w) (polls w) (nextRequest w) (requests w).
Proof.
  intros Hfile. unfold exec, handleSendMessages. rewrite Hfile. reflexivity.
Qed.

(** C4, as the code has it: when the request of a submission fails
    (the fetch is rejected, or the response is not ok), the rest of
    [handleSendMessages] puts one error entry [Error: <message>] at the
    head of the log, stores the error notification with the fixed text
    [Failed to start campaign], resets the loading flag and changes
    nothing else: the campaign status, the polling handle, the timers
    and the issued requests are as before.  The message is the thrown
    error's when the fetch is rejected, the parser's when the body of
    the non-ok response is not JSON, the backend's [detail] when the
    body carries a non-empty one, and [Error sending messages] when the
    detail is empty or missing. *)
Theorem handleSendMessagesSettled_failure
    (u : Upload) (o : UploadOutcome) (w : World) :
  (exists err, o = uploadRejected err)
  \/ (exists json, o = uploadResponse false json) ->
  exists message,
    exec (handleSendMessagesSettled u o) w =
    mkWorld
      (mkState (file (st w))
         (mkLog (Number_toString (now w)) (toLocaleTimeString (now w))
            ("Error: " ++ message) error :: logs (st w))
         false
         (mkToast "Failed to start campaign" (Some toastError))
         (campaignStatus (st w)) (pollingInterval (st w)) (templateName (st w)))
      (now w) (timers w) (nextTimer w) (pollingEffect w) (toastEffect w)
      true (uploads w) (polls w) (nextRequest w) (requests w)
    /\ (forall err, o = uploadRejected err -> message = err)
    /\ (forall err, o = uploadResponse false (inr err) -> message = err)
    /\ (forall m d, o = uploadResponse false (inl (mkUploadData m (Some d))) ->
          d <> EmptyString -> message = d)
    /\ (forall m, o = uploadResponse false (inl (mkUploadData m (Some EmptyString))) ->
          message = "Error sending messages")
    /\ (forall m, o = uploadResponse false (inl (mkUploadData m None)) ->
          message = "Error sending messages").
Proof.
  intros [[err ->]|[[[m [d|]]|err] ->]].
  - exists err. split; [reflexivity|].
    repeat split; intros; congruence.
  - destruct (String.eqb_spec d EmptyString) as [->|Hd].
    + exists "Error sending messages". split; [reflexivity|].
      repeat split; intros; congruence.
    + exists d. split.
      * unfold exec, handleSendMessagesSettled, uploadAwaited, truthyString.
        cbn [data_detail]. destruct (String.eqb_spec d EmptyString);
          [contradiction|reflexivity].
      * repeat split; intros; congruence.
  - exists "Error sending messages". split; [reflexivity|].
    repeat split; intros; congruence.
  - exists err. split; [reflexivity|].
    repeat split; intros; congruence.
Qed.

(** C7, on the code: the ids are not strictly increasing.  A
    successful submission creates its two log entries in the same
    task, so both read the same [Date.now()] and the later entry
    carries the same id as the earlier one. *)
Theorem handleSendMessagesSettled_repeats_log_id
    (u : Upload) (data : UploadData) (w : World) :
  exists later earlier,
    logs (st (exec (handleSendMessagesSettled u (uploadResponse true (inl data))) w))
    = later :: earlier :: logs (st w)
    /\ log_message earlier = "Campaign started: " ++ interpolate (data_message data)
    /\ log_message later = "Checking campaign status..."
    /\ log_id later = log_id earlier.
Proof.
  unfold exec, handleSendMessagesSettled, startPollingStatus, clearExistingPolling.
  destruct (up_pollingInterval u); do 2 eexists; (split; [reflexivity|]);
    repeat split.
Qed.

(** ** Polling *)

(** C3, on the code: a tick whose response holds both counts, with
    [processed: 0], overwrites the snapshot but writes no progress
    entry, because [data.processed && data.total] is falsy for a count
    of zero. *)
Theorem pollTickSettled_zero_processed (p : Poll) (w : World) :
  let w' := exec (pollTickSettled p (progress 0 20)) w in
  campaignStatus (st w') =
    Some (mkCampaignStatus (poll_fileName p) "processing" (Some 0) (Some 20)
            None None None)
  /\ logs (st w') = logs (st w).
Proof.
  split; reflexivity.
Qed.

(** With both counts present and non-zero and a status other than
    [completed], the tick overwrites the snapshot with the response and
    logs the fraction. *)
Lemma pollTickSettled_progress (p : Poll) (data : StatusData) (a b : Z) (w : World) :
  data_status data <> "completed" ->
  data_processed data = Some a -> data_total data = Some b ->
  a <> 0 -> b <> 0 ->
  exec (pollTickSettled p (statusResponse true (Some data))) w =
  mkWorld
    (mkState (file (st w))
       (mkLog (Number_toString (now w)) (toLocaleTimeString (now w))
          ("Progress: " ++ Number_toString a ++ "/" ++ Number_toString b
           ++ " contacts processed") info :: logs (st w))
       (isLoading (st w)) (toast (st w))
       (Some (mkCampaignStatus (poll_fileName p) (data_status data)
                (Some a) (Some b) (data_successful data) (data_failed data)
                (data_success_rate data)))
       (pollingInterval (st w)) (templateName (st w)))
    (now w) (timers w) (nextTimer w) (pollingEffect w) (toastEffect w)
    (toastChanged w) (uploads w) (polls w) (nextRequest w) (requests w).
Proof.
  intros Hst Ha Hb Ha0 Hb0.
  unfold exec, pollTickSettled; cbn.
  unfold bind; cbn.
  destruct (String.eqb_spec (data_status data) "completed"); [contradiction|].
  rewrite Ha, Hb; cbn.
  destruct (Z.eqb_spec a 0); [contradiction|].
  destruct (Z.eqb_spec b 0); [contradiction|].
  reflexivity.
Qed.

(** The scenario of the progress report [5/20]. *)
Example pollTickSettled_5_of_20 (p : Poll) (w : World) :
  let w' := exec (pollTickSettled p (progress 5 20)) w in
  map log_message (logs (st w'))
    = "Progress: 5/20 contacts processed" :: map log_message (logs (st w))
  /\ campaignStatus (st w') =
       Some (mkCampaignStatus (poll_fileName p) "processing" (Some 5) (Some 20)
               None None None).
Proof.
  split; reflexivity.
Qed.

(** ** The log *)

Lemma appendLogs_logs es : forall w,
  logs (st (exec (appendLogs es) w)) =
  (rev (createdLogs (now w) es) ++ logs (st w))%list.
Proof.
  induction es as [|[d [m ty]] es IH]; intros w; [reflexivity|].
  change (exec (appendLogs ((d, (m, ty)) :: es)) w)
    with (exec (appendLogs es) (exec (advanceClock d ;; addLog m ty) w)).
  rewrite IH. cbn [createdLogs rev]. rewrite <- app_assoc. reflexivity.
Qed.

Lemma createdLogs_length t es : List.length (createdLogs t es) = List.length es.
Proof.
  revert t. induction es as [|[d [m ty]] es IH]; intros t; cbn; [|rewrite IH]; reflexivity.
Qed.

Lemma createdLogs_contents t es :
  map (fun l => (log_message l, log_type l)) (createdLogs t es) = map snd es.
Proof.
  revert t. induction es as [|[d [m ty]] es IH]; intros t; cbn; [|rewrite IH]; reflexivity.
Qed.

(** Whatever the event, the page only puts entries in front of the
    log. *)
Lemma task_logs_prepend (w : World) (e : Event) :
  exists new, logs (st (exec (task e) w)) = (new ++ logs (st w))%list.
Proof.
  assert (Hdone : forall l : list Log,
            (exists new, l = (new ++ l)%list)) by (intros l; exists []; reflexivity).
  destruct e as [f|tn| |id o|t|id o|d]; unfold exec, task.
  - unfold handleFileSelected.
    destruct (endsWith (file_name f) ".csv"); cbn; [eexists [_]; reflexivity|auto].
  - cbn. auto.
  - unfold sendDisabled, handleSendMessages.
    destruct (file (st w)) as [f|]; [destruct (isLoading (st w))|]; cbn; auto.
    eexists [_]; reflexivity.
  - unfold bind, resumeUpload; cbn.
    destruct (find (fun u => Nat.eqb (up_id u) id) (uploads w)) as [u|]; cbn; auto.
    unfold handleSendMessagesSettled, startPollingStatus, clearExistingPolling.
    destruct (uploadAwaited o) as [data|message];
      [destruct (up_pollingInterval u) as [c|]|]; cbn;
      first [eexists [_]; reflexivity | eexists [_; _]; reflexivity].
  - unfold dueTimer.
    destruct (find (fun x => Pos.eqb (timer_id x) t) (timers w)) as [x|]; cbn; auto.
    destruct (timer_due x <=? now w); cbn; auto.
    unfold bind, rearm, runCallback, pollTick, toastTimerFired.
    destruct (timer_repeat x); destruct (timer_callback x); cbn; auto.
  - unfold bind, resumePoll; cbn.
    destruct (find (fun p => Nat.eqb (poll_id p) id) (polls w)) as [p|]; cbn; auto.
    unfold pollTickSettled.
    destruct (statusAwaited o) as [data|]; cbn;
      [destruct (String.eqb (data_status data) "completed");
       [|destruct (truthyNumber (data_processed data)
                   && truthyNumber (data_total data))]|];
      cbn; auto; eexists [_]; reflexivity.
  - cbn. auto.
Qed.

(** C6: after any run of N log-producing events the log is the N
    created entries, newest first, in front of the entries that were
    there before, which are untouched: nothing is dropped, merged or
    rewritten, whatever N is and however often a message repeats. *)
Theorem appendLogs_newest_first (es : list (N * (string * LogType))) (w : World) :
  logs (st (exec (appendLogs es) w)) = (rev (createdLogs (now w) es) ++ logs (st w))%list
  /\ List.length (logs (st (exec (appendLogs es) w))) = (List.length es + List.length (logs (st w)))%nat
  /\ map (fun l => (log_message l, log_type l)) (createdLogs (now w) es) = map snd es.
Proof.
  split; [apply appendLogs_logs|]. split; [|apply createdLogs_contents].
  rewrite appendLogs_logs, length_app, length_rev, createdLogs_length. reflexivity.
Qed.

(** ** Invariant preservation *)

Lemma sameTimer_spec a b : sameTimer a b = true <-> a = b.
Proof.
  destruct a as [x|], b as [y|]; unfold sameTimer; split; try congruence; try tauto.
  - intros H. apply Pos.eqb_eq in H. congruence.
  - intros H. inversion H. apply Pos.eqb_refl.
Qed.

Lemma In_cleared (i : TimerId) (t : Timer) (l : list Timer) :
  In t (filter (fun x => negb (Pos.eqb (timer_id x) i)) l)
  <-> In t l /\ timer_id t <> i.
Proof.
  rewrite filter_In. split; intros [H1 H2]; split; trivial.
  - intros E. rewrite E, Pos.eqb_refl in H2. discriminate.
  - destruct (Pos.eqb_spec (timer_id t) i); [contradiction|reflexivity].
Qed.

Lemma NoDup_map_filter {A B} (f : A -> B) (g : A -> bool) (l : list A) :
  NoDup (map f l) -> NoDup (map f (filter g l)).
Proof.
  induction l as [|a l IH]; cbn; intros H; [constructor|].
  inversion H as [|? ? Hn Hl]; subst.
  destruct (g a); cbn; [constructor|]; auto.
  intros Hin. apply Hn. apply in_map_iff in Hin as [x [Hx Hin]].
  apply filter_In in Hin as [Hin _]. apply in_map_iff. eauto.
Qed.

Lemma postpone_id period i x : timer_id (postpone period i x) = timer_id x.
Proof. unfold postpone. destruct (Pos.eqb (timer_id x) i); reflexivity. Qed.

Lemma postpone_isPoller period i x : isPoller (postpone period i x) = isPoller x.
Proof. unfold postpone. destruct (Pos.eqb (timer_id x) i); reflexivity. Qed.

Lemma In_postponed period i (t : Timer) (l : list Timer) :
  In t (map (postpone period i) l) ->
  exists x, In x l /\ timer_id t = timer_id x /\ isPoller t = isPoller x.
Proof.
  intros Hin. apply in_map_iff in Hin as [x [<- Hin]].
  exists x. rewrite postpone_id, postpone_isPoller. auto.
Qed.

Lemma postponed_ids period i (l : list Timer) :
  map timer_id (map (postpone period i) l) = map timer_id l.
Proof.
  rewrite map_map. apply map_ext. intros x. apply postpone_id.
Qed.

Lemma not_In_fresh (n : TimerId) (l : list Timer) :
  (forall t, In t l -> (timer_id t < n)%positive) -> ~ In n (map timer_id l).
Proof.
  intros H Hin. apply in_map_iff in Hin as [x [Hx Hin]].
  specialize (H x Hin). lia.
Qed.

Lemma uploadInv_mono us b (ts ts' : list Timer) :
  uploadInv us b ts ->
  (forall t, In t ts' -> isPoller t = true ->
     exists x, In x ts /\ isPoller x = true /\ timer_id x = timer_id t) ->
  uploadInv us b ts'.
Proof.
  intros H Hsub. destruct us as [|u [|u' us]]; auto.
  destruct H as [Hb Hc]. split; [exact Hb|].
  intros t Hin Hp. destruct (Hsub t Hin Hp) as [x [Hx [Hpx <-]]]. auto.
Qed.

(** Take apart membership in a timer list that was cleared or
    extended. *)
Ltac cleared :=
  repeat match goal with
    | H : In _ (filter (fun x => negb (Pos.eqb (timer_id x) _)) _) |- _ =>
        apply In_cleared in H; destruct H
    | H : In _ (_ :: _) |- _ => destruct H as [H|H]; [subst|]
    | H : _ = ?t \/ In ?t _ |- _ => destruct H as [H|H]; [subst|]
    | H : In ?t (map (postpone _ _) _) |- _ =>
        let x := fresh "x" in
        let Hid := fresh "Hid" in
        let Hpoll := fresh "Hpoll" in
        apply In_postponed in H; destruct H as [x [H [Hid Hpoll]]];
        rewrite ?Hid, ?Hpoll in *
    | |- context [map timer_id (map (postpone _ _) _)] => rewrite postponed_ids
    | |- NoDup (map _ (filter _ _)) => apply NoDup_map_filter
    end.

(** Bring in what the invariant of [w] says about the timers, handles
    and polls at hand. *)
Ltac known w :=
  repeat match goal with
    | Hall : (forall t, In t (timers w) -> (timer_id t < nextTimer w)%positive),
      H : In ?x (timers w) |- _ =>
        lazymatch goal with
        | _ : (timer_id x < nextTimer w)%positive |- _ => fail
        | _ => pose proof (Hall x H)
        end
    | Hall : (forall p, In p (polls w) -> (poll_interval p < nextTimer w)%positive),
      H : In ?x (polls w) |- _ =>
        lazymatch goal with
        | _ : (poll_interval x < nextTimer w)%positive |- _ => fail
        | _ => pose proof (Hall x H)
        end
    | Hall : (forall i, Some ?x = Some i -> (i < nextTimer w)%positive) |- _ =>
        lazymatch goal with
        | _ : (x < nextTimer w)%positive |- _ => fail
        | _ => pose proof (Hall x eq_refl)
        end
    | Hall : (forall i, ?c = Some i -> (i < nextTimer w)%positive),
      H : ?c = Some ?x |- _ =>
        lazymatch goal with
        | _ : (x < nextTimer w)%positive |- _ => fail
        | _ => pose proof (Hall x H)
        end
    | Hall : (forall t, In t (timers w) -> isPoller t = false -> _),
      H : In ?x (timers w), H' : isPoller ?x = false |- _ =>
        pose proof (Hall x H H'); clear H'
    | Hall : (forall t, In t (timers w) -> isPoller t = true -> _ \/ _),
      H : In ?x (timers w), H' : isPoller ?x = true |- _ =>
        destruct (Hall x H H'); clear H'
    end.

Ltac some_inj :=
  repeat match goal with
    | H : Some ?a = Some ?b |- _ => injection H as H
    end.

Ltac timers_done w :=
  cleared; cbn in *; try discriminate; known w; some_inj;
  try solve [ auto | congruence | lia
            | left; congruence | right; congruence
            | constructor; [apply not_In_fresh; intros; cleared; known w; lia
                           | cleared; auto ]
            | match goal with
              | H : uploadInv _ _ _ |- uploadInv _ _ _ =>
                  apply (uploadInv_mono _ _ _ _ H); intros; cleared;
                  cbn in *; try discriminate; eauto
              end ].

Lemma pollingCleanupEffect_Inv (w : World) :
  TaskInv w ->
  TaskInv (exec pollingCleanupEffect w)
  /\ pollingEffect (exec pollingCleanupEffect w)
     = pollingInterval (st (exec pollingCleanupEffect w)).
Proof.
  intros [Ht Hp He Hto Hpo Hnd Hpk Htk Hup].
  unfold exec, pollingCleanupEffect.
  destruct (sameTimer (pollingInterval (st w)) (pollingEffect w)) eqn:Hs.
  - apply sameTimer_spec in Hs. cbn. split; [|congruence].
    constructor; auto.
  - destruct (pollingEffect w) as [e|] eqn:Heff; cbn;
      (split; [|reflexivity]); constructor; cbn; intros; timers_done w.

Qed.

Lemma toastClearEffect_Inv (w : World) :
  TaskInv w ->
  TaskInv (exec toastClearEffect w)
  /\ toastChanged (exec toastClearEffect w) = false
  /\ pollingEffect (exec toastClearEffect w) = pollingEffect w
  /\ st (exec toastClearEffect w) = st w.
Proof.
  intros [Ht Hp He Hto Hpo Hnd Hpk Htk Hup].
  unfold exec, toastClearEffect.
  destruct (toastChanged w) eqn:Hch; [|cbn; repeat split; auto].
  destruct (toastEffect w) as [e|] eqn:Heff;
    destruct (toast_type (toast (st w))) as [ty|] eqn:Hty; cbn; rewrite ?Hty; cbn;
    (split; [|auto]); constructor; cbn; intros; timers_done w.
Qed.

Lemma exec_bind {A B} (m : Eff A) (k : A -> Eff B) (w : World) :
  exec (bind m k) w = exec (k (fst (m w))) (exec m w).
Proof. reflexivity. Qed.

Lemma commit_Inv (w : World) : TaskInv w -> Inv (exec commit w).
Proof.
  intros H. unfold commit. rewrite exec_bind.
  destruct (pollingCleanupEffect_Inv w H) as [H1 E1].
  destruct (toastClearEffect_Inv _ H1) as [H2 [E2 [E3 E4]]].
  constructor; [exact H2|exact E2|]. rewrite E3, E4. exact E1.
Qed.

Lemma find_none_filter {A} (f : A -> bool) (l : list A) :
  find f l = None -> filter (fun x => negb (f x)) l = l.
Proof.
  induction l as [|a l IH]; cbn; [reflexivity|].
  destruct (f a); [discriminate|]. cbn. intros H. rewrite IH; auto.
Qed.

Lemma task_TaskInv (w : World) (e : Event) : Inv w -> TaskInv (exec (task e) w).
Proof.
  intros [[Ht Hp He Hto Hpo Hnd Hpk Htk Hup] Hct Hcp].
  destruct e as [f|tn| |id o|t|id o|d]; unfold exec, task.
  - (* selectFile *)
    unfold handleFileSelected.
    destruct (endsWith (file_name f) ".csv"); constructor; cbn; intros; timers_done w.
  - (* changeTemplateName *)
    constructor; cbn; intros; timers_done w.
  - (* clickSend *)
    unfold sendDisabled, handleSendMessages.
    destruct (file (st w)) as [f|] eqn:Hf; [|constructor; cbn; intros; timers_done w].
    destruct (isLoading (st w)) eqn:Hl; constructor; cbn; intros; timers_done w.
    unfold uploadInv in *.
    destruct (uploads w) as [|u0 [|u1 us]];
      [|destruct Hup; discriminate|contradiction].
    split; [reflexivity|]. intros t Hin Hpoll. cbn.
    destruct (Hpk t Hin Hpoll); congruence.
  - (* uploadSettled *)
    unfold bind, resumeUpload; cbn.
    destruct (find (fun u => Nat.eqb (up_id u) id) (uploads w)) as [u|] eqn:Hfind; cbn.
    + assert (Hus : uploads w = [u]).
      { unfold uploadInv in Hup. destruct (uploads w) as [|u0 [|u1 us]];
          [discriminate| |contradiction].
        cbn in Hfind. destruct (Nat.eqb (up_id u0) id); congruence. }
      rewrite Hus in *. cbn in Hfind.
      destruct (Nat.eqb (up_id u) id) eqn:Hid; [|discriminate]. cbn.
      destruct Hup as [Hl Hclo].
      unfold handleSendMessagesSettled, startPollingStatus, clearExistingPolling.
      destruct (uploadAwaited o) as [data|message];
        [destruct (up_pollingInterval u) as [c|] eqn:Hc|];
        constructor; cbn; intros; timers_done w; rewrite Hid; exact I.
    + rewrite (find_none_filter _ _ Hfind).
      constructor; cbn; intros; timers_done w.
  - (* timerFired *)
    unfold dueTimer.
    destruct (find (fun x => Pos.eqb (timer_id x) t) (timers w)) as [x|] eqn:Hfind;
      [|constructor; cbn; intros; timers_done w].
    destruct (timer_due x <=? now w); [|constructor; cbn; intros; timers_done w].
    apply find_some in Hfind as [Hx Hxt].
    unfold bind, rearm, runCallback, pollTick, toastTimerFired.
    destruct (timer_repeat x) as [period|]; destruct (timer_callback x) eqn:Hcb;
      constructor; cbn; intros; timers_done w.
  - (* statusSettled *)
    unfold bind, resumePoll; cbn.
    destruct (find (fun p => Nat.eqb (poll_id p) id) (polls w)) as [p|] eqn:Hfind; cbn.
    + apply find_some in Hfind as [Hp0 _].
      unfold pollTickSettled.
      destruct (statusAwaited o) as [data|]; cbn;
        [destruct (String.eqb (data_status data) "completed");
         [|destruct (truthyNumber (data_processed data)
                     && truthyNumber (data_total data))]|];
        constructor; cbn; intros;
        repeat match goal with
          | H : In _ (filter (fun p => negb (Nat.eqb (poll_id p) id)) _) |- _ =>
              apply filter_In in H; destruct H
          end; timers_done w.

    + rewrite (find_none_filter _ _ Hfind).
      constructor; cbn; intros; timers_done w.
  - (* elapse *)
    constructor; cbn; intros; timers_done w.
Qed.

Lemma init_Inv (t0 : Z) : Inv (init t0).
Proof.
  repeat constructor; cbn; intros; try discriminate; try contradiction.
Qed.

Lemma step_Inv (w : World) (e : Event) : Inv w -> Inv (step w e).
Proof.
  intros H. unfold step. rewrite exec_bind.
  apply commit_Inv, task_TaskInv, H.
Qed.

Lemma reachable_Inv (w : World) : reachable w -> Inv w.
Proof.
  induction 1; [apply init_Inv|apply step_Inv; assumption].
Qed.

Lemma reachable_run (es : list Event) : forall w,
  reachable w -> reachable (run w es).
Proof.
  induction es as [|e es IH]; intros w H; [exact H|].
  apply IH. constructor. exact H.
Qed.

(** Between tasks nothing is left for the effects to do. *)
Lemma commit_idle (w : World) :
  toastChanged w = false -> pollingEffect w = pollingInterval (st w) ->
  exec commit w = w.
Proof.
  intros Hc He. unfold commit, exec, bind, pollingCleanupEffect, toastClearEffect.
  assert (Hs : sameTimer (pollingInterval (st w)) (pollingEffect w) = true)
    by (apply sameTimer_spec; congruence).
  rewrite Hs. cbn. rewrite Hc. reflexivity.
Qed.

Lemma filter_nil {A} (f : A -> bool) (l : list A) :
  (forall x, In x l -> f x = false) -> filter f l = [].
Proof.
  induction l as [|a l IH]; cbn; intros H; [reflexivity|].
  rewrite (H a) by auto. apply IH. auto.
Qed.

Lemma pollers_In (w : World) (t : Timer) :
  In t (pollers w) <-> In t (timers w) /\ isPoller t = true.
Proof. apply filter_In. Qed.

Lemma pollers_handle (w : World) (t : Timer) :
  Inv w -> In t (pollers w) -> pollingInterval (st w) = Some (timer_id t).
Proof.
  intros [H _ He] Hin. apply pollers_In in Hin as [Hin Hp].
  destruct (poller_known w H t Hin Hp); congruence.
Qed.

Lemma pollers_at_most_one (w : World) :
  Inv w -> pollers w = [] \/ exists t, pollers w = [t].
Proof.
  intros HI. pose proof (pollers_handle w) as Hh.
  assert (Hnd : NoDup (map timer_id (pollers w))).
  { apply NoDup_map_filter, (distinct_timers w), HI. }
  destruct (pollers w) as [|a [|b l]]; [left; reflexivity|right; eauto|].
  exfalso. inversion Hnd as [|? ? Hn _]; subst. apply Hn.
  left. pose proof (Hh a HI (or_introl eq_refl)) as Ha.
  pose proof (Hh b HI (or_intror (or_introl eq_refl))) as Hb. congruence.
Qed.

Lemma pollingCleanupEffect_frame (w : World) :
  let w' := exec pollingCleanupEffect w in
  st w' = st w /\ now w' = now w /\ uploads w' = uploads w /\ polls w' = polls w
  /\ nextRequest w' = nextRequest w /\ requests w' = requests w
  /\ toastEffect w' = toastEffect w /\ toastChanged w' = toastChanged w
  /\ (forall t, In t (timers w') -> In t (timers w))
  /\ (forall t, In t (timers w) -> pollingEffect w <> Some (timer_id t) ->
        In t (timers w')).
Proof.
  unfold exec, pollingCleanupEffect.
  destruct (sameTimer (pollingInterval (st w)) (pollingEffect w)).
  - cbn. repeat split; auto.
  - destruct (pollingEffect w) as [e|]; cbn; repeat split; auto.
    + intros t Hin. apply In_cleared in Hin. tauto.
    + intros t Hin Hne. apply In_cleared. split; [exact Hin|congruence].
Qed.

Lemma toastClearEffect_frame (w : World) :
  let w' := exec toastClearEffect w in
  st w' = st w /\ now w' = now w /\ uploads w' = uploads w /\ polls w' = polls w
  /\ nextRequest w' = nextRequest w /\ requests w' = requests w
  /\ pollingEffect w' = pollingEffect w
  /\ (forall t, In t (timers w') -> isPoller t = true -> In t (timers w))
  /\ (forall t, In t (timers w) -> toastEffect w <> Some (timer_id t) ->
        In t (timers w')).
Proof.
  unfold exec, toastClearEffect.
  destruct (toastChanged w); [|cbn; repeat split; auto].
  destruct (toastEffect w) as [e|];
    destruct (toast_type (toast (st w))) as [ty|] eqn:Hty;
    cbn; rewrite ?Hty; cbn; repeat split; auto;
    intros; cleared; cbn in *; try discriminate; auto;
    try right; try (apply In_cleared; split); auto; congruence.
Qed.

(** The effects leave the component state, the clock and the network
    alone. *)
Lemma commit_frame (w : World) :
  st (exec commit w) = st w /\ now (exec commit w) = now w
  /\ uploads (exec commit w) = uploads w /\ polls (exec commit w) = polls w
  /\ nextRequest (exec commit w) = nextRequest w
  /\ requests (exec commit w) = requests w.
Proof.
  unfold commit. rewrite exec_bind.
  destruct (pollingCleanupEffect_frame w) as (A1 & A2 & A3 & A4 & A5 & A6 & _).
  destruct (toastClearEffect_frame (exec pollingCleanupEffect w))
    as (B1 & B2 & B3 & B4 & B5 & B6 & _).
  repeat split; congruence.
Qed.

(** The effects clear no timer but the ones their cleanups hold. *)
Lemma commit_keeps (w : World) (t : Timer) :
  In t (timers w) ->
  pollingEffect w <> Some (timer_id t) -> toastEffect w <> Some (timer_id t) ->
  In t (timers (exec commit w)).
Proof.
  unfold commit. rewrite exec_bind. intros Hin Hp Ht.
  destruct (pollingCleanupEffect_frame w) as (_ & _ & _ & _ & _ & _ & A & _ & _ & A').
  destruct (toastClearEffect_frame (exec pollingCleanupEffect w))
    as (_ & _ & _ & _ & _ & _ & _ & _ & B).
  apply B; [apply A'; assumption|]. rewrite A. exact Ht.
Qed.

(** ** An acknowledged submission *)

Lemma uploadSettled_started (w : World) (id : nat) (u : Upload)
    (o : UploadOutcome) (data : UploadData) :
  find (fun u => Nat.eqb (up_id u) id) (uploads w) = Some u ->
  uploadAwaited o = inl data ->
  let started := mkTimer (nextTimer w) (now w + 5000) (Some 5000)
                   (pollCallback (file_name (up_file u))) in
  let w1 := exec (task (uploadSettled id o)) w in
  timers w1 = started :: timers (exec (clearExistingPolling (up_pollingInterval u)) w)
  /\ pollingEffect w1 = pollingEffect w /\ toastEffect w1 = toastEffect w
  /\ pollingInterval (st w1) = Some (nextTimer w).
Proof.
  intros Hfind Hok. unfold exec, task, bind, resumeUpload. cbn.
  rewrite Hfind. unfold handleSendMessagesSettled. rewrite Hok.
  unfold startPollingStatus, clearExistingPolling.
  destruct (up_pollingInterval u); cbn; repeat split.
Qed.

Lemma pending_upload_closure (w : World) (id : nat) (u : Upload) (t : Timer) :
  Inv w ->
  find (fun u => Nat.eqb (up_id u) id) (uploads w) = Some u ->
  In t (timers w) -> isPoller t = true ->
  up_pollingInterval u = Some (timer_id t).
Proof.
  intros [H _ _] Hfind Hin Hp. pose proof (one_upload w H) as Hup.
  unfold uploadInv in Hup. destruct (uploads w) as [|u0 [|u1 us]];
    [discriminate| |contradiction].
  cbn in Hfind. destruct (Nat.eqb (up_id u0) id); [|discriminate].
  injection Hfind as <-. destruct Hup as [_ Hc]. auto.
Qed.

(** ** What a task can do to the timers and the network *)

Lemma task_effect (w : World) (e : Event) :
  let w1 := exec (task e) w in
  (nextTimer w <= nextTimer w1)%positive
  /\ (forall t, In t (timers w1) ->
        (exists x, In x (timers w) /\ timer_id x = timer_id t
                   /\ isPoller x = isPoller t)
        \/ (timer_id t = nextTimer w
            /\ (isPoller t = true -> startsPolling e = true)))
  /\ (requests w1 = requests w
      \/ (exists f tn, requests w1 = uploadRequest f tn :: requests w)
      \/ (exists x fn, In x (timers w) /\ isPoller x = true
                       /\ requests w1 = statusRequest (timer_id x) fn :: requests w)).
Proof.
  assert (Hsame : forall l : list Timer, forall t, In t l ->
            (exists x, In x l /\ timer_id x = timer_id t /\ isPoller x = isPoller t)
            \/ (timer_id t = nextTimer w
                /\ (isPoller t = true -> startsPolling e = true)))
    by (intros l t Hin; left; eauto).
  destruct e as [f|tn| |id o|t|id o|d]; unfold exec, task.
  - unfold handleFileSelected.
    destruct (endsWith (file_name f) ".csv"); cbn; repeat split; auto; lia.
  - cbn; repeat split; auto; lia.
  - unfold sendDisabled, handleSendMessages.
    destruct (file (st w)) as [f|]; [destruct (isLoading (st w))|];
      cbn; repeat split; auto; try lia.
    right. left. eauto.
  - unfold bind, resumeUpload; cbn.
    destruct (find (fun u => Nat.eqb (up_id u) id) (uploads w)) as [u|];
      cbn; [|repeat split; auto; lia].
    unfold handleSendMessagesSettled, startPollingStatus, clearExistingPolling.
    destruct (uploadAwaited o) as [data|message];
      [destruct (up_pollingInterval u) as [c|]|];
      cbn; repeat split; auto; try lia;
      intros; cleared; cbn; eauto 6.
  - unfold dueTimer.
    destruct (find (fun x => Pos.eqb (timer_id x) t) (timers w)) as [x|] eqn:Hfind;
      [|cbn; repeat split; auto; lia].
    destruct (timer_due x <=? now w); [|cbn; repeat split; auto; lia].
    apply find_some in Hfind as [Hx Hxt].
    unfold bind, rearm, runCallback, pollTick, toastTimerFired.
    destruct (timer_repeat x) as [period|]; destruct (timer_callback x) eqn:Hcb;
      cbn; repeat split; auto; try lia;
      try (intros; cleared; left; eauto 6; fail);
      right; right; exists x, fileName; unfold isPoller; rewrite Hcb; auto.
  - unfold bind, resumePoll; cbn.
    destruct (find (fun p => Nat.eqb (poll_id p) id) (polls w)) as [p|];
      cbn; [|repeat split; auto; lia].
    unfold pollTickSettled.
    destruct (statusAwaited o) as [data|]; cbn;
      [destruct (String.eqb (data_status data) "completed");
       [|destruct (truthyNumber (data_processed data)
                   && truthyNumber (data_total data))]|];
      cbn; repeat split; auto; try lia;
      intros; cleared; left; eauto 6.
  - cbn; repeat split; auto; lia.
Qed.

Lemma commit_effect (w : World) :
  let w1 := exec commit w in
  (nextTimer w <= nextTimer w1)%positive
  /\ (forall t, In t (timers w1) ->
        In t (timers w) \/ (timer_id t = nextTimer w /\ isPoller t = false)).
Proof.
  unfold commit, exec, bind, pollingCleanupEffect, toastClearEffect.
  destruct (sameTimer (pollingInterval (st w)) (pollingEffect w));
    [|destruct (pollingEffect w)]; cbn;
    (destruct (toastChanged w); [|cbn; split; [lia|intros; cleared; auto]]);
    destruct (toastEffect w); destruct (toast_type (toast (st w))) eqn:Hty;
    cbn; rewrite ?Hty; cbn; (split; [lia|intros; cleared; auto]).
Qed.


(** ** One polling loop at any time *)

(** The handle a pending submission closed over names every loop that
    is armed, so clearing it leaves none. *)
Lemma closure_clears_pollers (w : World) (id : nat) (u : Upload) :
  Inv w ->
  find (fun u => Nat.eqb (up_id u) id) (uploads w) = Some u ->
  pollers (exec (clearExistingPolling (up_pollingInterval u)) w) = [].
Proof.
  intros HI Hfind. unfold pollers. apply filter_nil. intros x Hx.
  destruct (isPoller x) eqn:Hp; [exfalso|reflexivity].
  unfold exec, clearExistingPolling in Hx.
  destruct (up_pollingInterval u) as [c|] eqn:Hc; cbn in Hx.
  - apply In_cleared in Hx as [Hx Hne].
    pose proof (pending_upload_closure w id u x HI Hfind Hx Hp). congruence.
  - pose proof (pending_upload_closure w id u x HI Hfind Hx Hp). congruence.
Qed.

(** Timers with distinct ids whose loops all carry the id of a loop of
    [w] hold at most one loop. *)
Lemma few_pollers (w : World) (ts : list Timer) :
  Inv w -> NoDup (map timer_id ts) ->
  (forall t, In t ts -> isPoller t = true ->
     exists x, In x (timers w) /\ timer_id x = timer_id t /\ isPoller x = true) ->
  (List.length (filter isPoller ts) <= 1)%nat.
Proof.
  intros HI Hnd Hold.
  assert (Hnd' : NoDup (map timer_id (filter isPoller ts)))
    by (apply NoDup_map_filter, Hnd).
  assert (Hin : forall t, In t (filter isPoller ts) ->
            exists x, In x (pollers w) /\ timer_id x = timer_id t).
  { intros t Ht. apply filter_In in Ht as [Ht Hp].
    destruct (Hold t Ht Hp) as (x & Hx & Hid & Hpx).
    exists x. split; [apply pollers_In; auto|exact Hid]. }
  destruct (filter isPoller ts) as [|a [|b l]]; cbn; [lia|lia|exfalso].
  destruct (Hin a (or_introl eq_refl)) as (xa & Hxa & Ha).
  destruct (Hin b (or_intror (or_introl eq_refl))) as (xb & Hxb & Hb).
  inversion Hnd' as [|? ? Hn _]; subst. apply Hn. left.
  destruct (pollers_at_most_one w HI) as [E|[t E]]; rewrite E in Hxa, Hxb.
  - contradiction.
  - destruct Hxa as [<-|[]]. destruct Hxb as [<-|[]]. congruence.
Qed.

(** Also inside a step, when the task has run and the effects have
    not, at most one loop is armed. *)
Lemma task_pollers (w : World) (e : Event) :
  Inv w -> (List.length (pollers (exec (task e) w)) <= 1)%nat.
Proof.
  intros HI. destruct (startsPolling e) eqn:Hs.
  - destruct e as [f|tn| |id o|t|id o|d]; try discriminate. cbn in Hs.
    destruct (uploadAwaited o) as [data|message] eqn:Hok; [|discriminate].
    destruct (find (fun u => Nat.eqb (up_id u) id) (uploads w)) as [u|] eqn:Hfind.
    + destruct (uploadSettled_started w id u o data Hfind Hok) as (Ht & _).
      pose proof (closure_clears_pollers w id u HI Hfind) as Hcl.
      unfold pollers in *. rewrite Ht. cbn. rewrite Hcl. cbn. lia.
    + assert (Ht : timers (exec (task (uploadSettled id o)) w) = timers w).
      { unfold exec, task, bind, resumeUpload. cbn. rewrite Hfind. reflexivity. }
      unfold pollers. rewrite Ht. fold (pollers w).
      destruct (pollers_at_most_one w HI) as [->|[t ->]]; cbn; lia.
  - apply (few_pollers w); [exact HI| |].
    + apply (distinct_timers _ (task_TaskInv w e HI)).
    + intros t Hin Hp. destruct (task_effect w e) as (_ & T & _).
      destruct (T t Hin) as [(x & Hx & Hid & Hpx)|[_ Hnew]].
      * exists x. repeat split; congruence.
      * specialize (Hnew Hp). congruence.
Qed.

(** C2: at most one polling loop is armed at any time.  Between tasks
    it is the one the state's handle names, and inside any step, once
    the task has run and before the effects do, there is still at most
    one.  When a submission is acknowledged, the handle its closure
    holds names every loop that is running; [startPollingStatus] clears
    it first, which leaves no loop armed, and arms its own on what is
    left: at the end of the task itself, and after the step, the only
    armed loop is the new one, due 5000 ms later, under an id no earlier
    timer had, and the state's handle names it. *)
Theorem single_poller (w : World) :
  reachable w ->
  (pollers w = []
   \/ exists t, pollers w = [t] /\ pollingInterval (st w) = Some (timer_id t))
  /\ (forall e, (List.length (pollers (exec (task e) w)) <= 1)%nat)
  /\ forall id u data,
       find (fun u => Nat.eqb (up_id u) id) (uploads w) = Some u ->
       let e := uploadSettled id (uploadResponse true (inl data)) in
       let started := mkTimer (nextTimer w) (now w + 5000) (Some 5000)
                        (pollCallback (file_name (up_file u))) in
       (forall t, In t (pollers w) -> up_pollingInterval u = Some (timer_id t))
       /\ pollers (exec (clearExistingPolling (up_pollingInterval u)) w) = []
       /\ timers (exec (task e) w)
          = started :: timers (exec (clearExistingPolling (up_pollingInterval u)) w)
       /\ pollers (exec (task e) w) = [started]
       /\ pollers (step w e) = [started]
       /\ pollingInterval (st (step w e)) = Some (nextTimer w)
       /\ (forall t, In t (timers w) -> timer_id t <> nextTimer w).
Proof.
  intros Hr. pose proof (reachable_Inv w Hr) as HI. split; [|split].
  - destruct (pollers_at_most_one w HI) as [H|[t H]]; [left; exact H|right].
    exists t. split; [exact H|]. apply pollers_handle; [exact HI|].
    rewrite H. left. reflexivity.
  - intros e. apply task_pollers, HI.
  - intros id u data Hfind e started.
    assert (Hok : uploadAwaited (uploadResponse true (inl data)) = inl data)
      by reflexivity.
    destruct (uploadSettled_started w id u _ data Hfind Hok) as (Ht & Hpe & Hte & Hpi).
    fold e started in Ht, Hpe, Hte, Hpi.
    pose proof (closure_clears_pollers w id u HI Hfind) as Hcl.
    assert (Htask : pollers (exec (task e) w) = [started]).
    { unfold pollers in *. rewrite Ht. cbn. rewrite Hcl. reflexivity. }
    split.
    { intros t Hin. apply pollers_In in Hin as [Hin Hp].
      exact (pending_upload_closure w id u t HI Hfind Hin Hp). }
    split; [exact Hcl|]. split; [exact Ht|]. split; [exact Htask|].
    assert (HI' : Inv (step w e)) by (apply step_Inv, HI).
    assert (Hin : In started (pollers (step w e))).
    { apply pollers_In. split; [|reflexivity].
      unfold step. rewrite exec_bind. apply commit_keeps.
      - rewrite Ht. left. reflexivity.
      - rewrite Hpe. intros E.
        pose proof (fresh_pollingEffect w (task_inv w HI) _ E) as Hlt.
        cbn in Hlt. lia.
      - rewrite Hte. intros E.
        pose proof (fresh_toastEffect w (task_inv w HI) _ E) as Hlt.
        cbn in Hlt. lia. }
    split; [|split].
    + destruct (pollers_at_most_one _ HI') as [H|[t H]]; rewrite H in Hin.
      * contradiction.
      * destruct Hin as [<-|[]]. exact H.
    + unfold step. rewrite exec_bind.
      destruct (commit_frame (exec (task e) w)) as [-> _]. exact Hpi.
    + intros t Hold E.
      pose proof (fresh_timers w (task_inv w HI) t Hold) as Hlt. lia.
Qed.

(** ** A stopped loop stays stopped *)






(** ** A failed tick *)

(** C10: when a tick fails (the fetch is rejected, the response is
    not ok whatever its body, or the body of an ok response does not
    parse), the task puts one error entry at the head of the log and
    changes nothing else: the snapshot, the toast, the polling handle
    and every timer, with its due time and period, are as before, and
    no request is issued. *)
Theorem failed_tick_only_logs
    (w : World) (id : nat) (p : Poll) (o : StatusOutcome) :
  reachable w ->
  find (fun p => Nat.eqb (poll_id p) id) (polls w) = Some p ->
  o = statusRejected
  \/ (exists json, o = statusResponse false json)
  \/ o = statusResponse true None ->
  step w (statusSettled id o) =
  mkWorld
    (mkState (file (st w))
       (mkLog (Number_toString (now w)) (toLocaleTimeString (now w))
          "Error checking campaign status" error :: logs (st w))
       (isLoading (st w)) (toast (st w)) (campaignStatus (st w))
       (pollingInterval (st w)) (templateName (st w)))
    (now w) (timers w) (nextTimer w) (pollingEffect w) (toastEffect w)
    (toastChanged w) (uploads w)
    (filter (fun p => negb (Nat.eqb (poll_id p) id)) (polls w))
    (nextRequest w) (requests w).
Proof.
  intros Hr Hfind Hfail. destruct (reachable_Inv w Hr) as [_ Hct Hcp].
  unfold step. rewrite exec_bind.
  assert (Ht : exec (task (statusSettled id o)) w =
    mkWorld
      (mkState (file (st w))
         (mkLog (Number_toString (now w)) (toLocaleTimeString (now w))
            "Error checking campaign status" error :: logs (st w))
         (isLoading (st w)) (toast (st w)) (campaignStatus (st w))
         (pollingInterval (st w)) (templateName (st w)))
      (now w) (timers w) (nextTimer w) (pollingEffect w) (toastEffect w)
      (toastChanged w) (uploads w)
      (filter (fun p => negb (Nat.eqb (poll_id p) id)) (polls w))
      (nextRequest w) (requests w)).
  { unfold exec, task, bind, resumePoll. cbn. rewrite Hfind.
    destruct Hfail as [->|[[json ->]| ->]]; reflexivity. }
  rewrite Ht. apply commit_idle; assumption.
Qed.

(** ** The toast *)

Lemma showToast_world (w : World) (message : string) (type : ToastType) :
  Inv w ->
  showToast message type w =
  mkWorld
    (mkState (file (st w)) (logs (st w)) (isLoading (st w))
       (mkToast message (Some type))
       (campaignStatus (st w)) (pollingInterval (st w)) (templateName (st w)))
    (now w)
    (mkTimer (nextTimer w) (now w + 3000) None toastCallback
     :: match toastEffect w with
        | Some e => filter (fun x => negb (Pos.eqb (timer_id x) e)) (timers w)
        | None => timers w
        end)
    (Pos.succ (nextTimer w)) (pollingEffect w) (Some (nextTimer w)) false
    (uploads w) (polls w) (nextRequest w) (requests w).
Proof.
  intros [_ _ Hcp].
  unfold showToast, commit, pollingCleanupEffect, toastClearEffect, exec, bind.
  cbn.
  assert (Hs : sameTimer (pollingInterval (st w)) (pollingEffect w) = true)
    by (apply sameTimer_spec; congruence).
  rewrite Hs. cbn. destruct (toastEffect w); reflexivity.
Qed.

Lemma showToast_Inv (w : World) (message : string) (type : ToastType) :
  Inv w -> Inv (showToast message type w).
Proof.
  intros [[Ht Hp He Hto Hpo Hnd Hpk Htk Hup] Hct Hcp].
  unfold showToast. rewrite exec_bind. apply commit_Inv.
  constructor; cbn; intros; timers_done w.
Qed.

Lemma elapse_world (w : World) (d : N) :
  Inv w ->
  step w (elapse d) =
  mkWorld (st w) (now w + Z.of_N d) (timers w) (nextTimer w) (pollingEffect w)
    (toastEffect w) (toastChanged w) (uploads w) (polls w) (nextRequest w)
    (requests w).
Proof.
  intros [_ Hct Hcp]. unfold step. rewrite exec_bind.
  apply commit_idle; assumption.
Qed.

(** After a notification is shown, the only armed toast timer is its
    own. *)
Lemma showToast_timers (w : World) (message : string) (type : ToastType) :
  Inv w ->
  toastTimers (showToast message type w)
  = [mkTimer (nextTimer w) (now w + 3000) None toastCallback].
Proof.
  intros HI. rewrite (showToast_world w message type HI).
  unfold toastTimers. cbn. f_equal. apply filter_nil. intros x Hx.
  destruct (isPoller x) eqn:Hp; [reflexivity|exfalso].
  pose proof (toast_known w (task_inv w HI)) as Htk.
  destruct (toastEffect w) as [e|].
  - apply In_cleared in Hx as [Hx Hne]. specialize (Htk x Hx Hp). congruence.
  - specialize (Htk x Hx Hp). discriminate.
Qed.

Lemma timer_by_id (w : World) (t : Timer) :
  Inv w -> In t (timers w) ->
  find (fun x => Pos.eqb (timer_id x) (timer_id t)) (timers w) = Some t.
Proof.
  intros HI. pose proof (distinct_timers w (task_inv w HI)) as Hnd.
  induction (timers w) as [|a l IH]; cbn; intros Hin; [contradiction|].
  cbn in Hnd. inversion Hnd as [|? ? Hn Hl]; subst.
  destruct Hin as [->|Hin]; [rewrite Pos.eqb_refl; reflexivity|].
  destruct (Pos.eqb_spec (timer_id a) (timer_id t)) as [E|_]; [|auto].
  exfalso. apply Hn. rewrite E. apply in_map. exact Hin.
Qed.

(** The toast timer does nothing before it is due; once due, its
    firing empties the slot and leaves no toast timer armed. *)
Lemma toast_timer_fires (w : World) (n : TimerId) (due : Z) :
  Inv w ->
  In (mkTimer n due None toastCallback) (timers w) ->
  (now w < due -> step w (timerFired n) = w)
  /\ (due <= now w ->
      visibleToasts (st (step w (timerFired n))) = []
      /\ toastTimers (step w (timerFired n)) = []).
Proof.
  intros HI Hin.
  pose proof (timer_by_id w _ HI Hin) as Hfind. cbn in Hfind.
  destruct HI as [HT Hct Hcp].
  pose proof (toast_known w HT _ Hin eq_refl) as Hte. cbn in Hte.
  assert (Hs : sameTimer (pollingInterval (st w)) (pollingEffect w) = true)
    by (apply sameTimer_spec; congruence).
  split; intros Hdue.
  - unfold step. rewrite exec_bind.
    assert (Ht : exec (task (timerFired n)) w = w).
    { unfold exec, task, dueTimer. rewrite Hfind. cbn.
      destruct (Z.leb_spec due (now w)); [lia|reflexivity]. }
    rewrite Ht. apply commit_idle; assumption.
  - unfold step, commit, pollingCleanupEffect, toastClearEffect, exec, bind,
      task, dueTimer.
    rewrite Hfind. cbn.
    destruct (Z.leb_spec due (now w)); [|lia].
    cbn. rewrite Hs. cbn. rewrite Hte. cbn. split; [reflexivity|].
    unfold toastTimers. cbn. apply filter_nil. intros x Hx.
    apply In_cleared in Hx as [Hx Hne]. apply In_cleared in Hx as [Hx _].
    destruct (isPoller x) eqn:Hp; [reflexivity|exfalso].
    pose proof (toast_known w HT x Hx Hp). congruence.
Qed.

(** Firing a timer that is not armed does nothing. *)
Lemma timerFired_absent (w : World) (n : TimerId) :
  Inv w ->
  (forall x, In x (timers w) -> timer_id x <> n) ->
  step w (timerFired n) = w.
Proof.
  intros [_ Hct Hcp] Hno. unfold step. rewrite exec_bind.
  assert (Ht : exec (task (timerFired n)) w = w).
  { unfold exec, task, dueTimer.
    destruct (find (fun x => Pos.eqb (timer_id x) n) (timers w)) as [x|] eqn:Hf;
      [|reflexivity].
    exfalso. apply find_some in Hf as [Hx Hid].
    apply Pos.eqb_eq in Hid. exact (Hno x Hx Hid). }
  rewrite Ht. apply commit_idle; assumption.
Qed.

(** C8: when [N2] is shown [d < 3000] ms after [N1], [N1]'s timer is
    no longer armed and firing it does nothing; [N2] is the visible
    notification and its timer, the only toast timer armed, is due
    exactly 3000 ms after [N2] was shown: before that reading it cannot
    fire, and from that reading on its firing empties the slot.  The
    slot never shows more than one notification. *)
Theorem toast_replaced_within_window
    (w : World) (m1 m2 : string) (ty1 ty2 : ToastType) (d : N) :
  reachable w ->
  Z.of_N d < 3000 ->
  let n1 := nextTimer w in
  let n2 := Pos.succ n1 in
  let w1 := showToast m1 ty1 w in
  let w2 := showToast m2 ty2 (step w1 (elapse d)) in
  toastTimers w1 = [mkTimer n1 (now w + 3000) None toastCallback]
  /\ visibleToasts (st w1) = [mkToast m1 (Some ty1)]
  /\ visibleToasts (st w2) = [mkToast m2 (Some ty2)]
  /\ toastTimers w2 = [mkTimer n2 (now w + Z.of_N d + 3000) None toastCallback]
  /\ (forall e, step (step w2 (elapse e)) (timerFired n1) = step w2 (elapse e))
  /\ (forall e, Z.of_N e < 3000 ->
        step (step w2 (elapse e)) (timerFired n2) = step w2 (elapse e))
  /\ (forall e, 3000 <= Z.of_N e ->
        visibleToasts (st (step (step w2 (elapse e)) (timerFired n2))) = []
        /\ toastTimers (step (step w2 (elapse e)) (timerFired n2)) = [])
  /\ (forall s, (List.length (visibleToasts s) <= 1)%nat).
Proof.
  intros Hr Hd. cbv zeta.
  pose proof (reachable_Inv w Hr) as HI.
  pose proof (showToast_Inv w m1 ty1 HI) as HI1.
  pose proof (showToast_timers w m1 ty1 HI) as T1.
  pose proof (showToast_world w m1 ty1 HI) as E1.
  set (w1 := showToast m1 ty1 w) in *. clearbody w1.
  pose proof (step_Inv _ (elapse d) HI1) as HI1'.
  pose proof (elapse_world w1 d HI1) as E1'.
  set (w1' := step w1 (elapse d)) in *. clearbody w1'.
  pose proof (showToast_Inv w1' m2 ty2 HI1') as HI2.
  pose proof (showToast_timers w1' m2 ty2 HI1') as T2.
  pose proof (showToast_world w1' m2 ty2 HI1') as E2.
  set (w2 := showToast m2 ty2 w1') in *. clearbody w2.
  rewrite E1' in E2, T2. cbn in E2, T2.
  rewrite E1 in E2, T2. cbn in E2, T2.
  assert (V1 : visibleToasts (st w1) = [mkToast m1 (Some ty1)])
    by (rewrite E1; reflexivity).
  assert (V2 : visibleToasts (st w2) = [mkToast m2 (Some ty2)])
    by (rewrite E2; reflexivity).
  assert (Htm : forall x, In x (timers w2) ->
            x = mkTimer (Pos.succ (nextTimer w)) (now w + Z.of_N d + 3000)
                  None toastCallback
            \/ timer_id x <> nextTimer w).
  { intros x. rewrite E2. cbn. rewrite Pos.eqb_refl. cbn.
    intros [<-|Hx]; [left; reflexivity|right].
    apply In_cleared in Hx as [_ Hne]. exact Hne. }
  assert (Hin : In (mkTimer (Pos.succ (nextTimer w)) (now w + Z.of_N d + 3000)
                      None toastCallback) (timers w2))
    by (rewrite E2; left; reflexivity).
  assert (Hnow : now w2 = now w + Z.of_N d) by (rewrite E2; reflexivity).
  clear E1 E1' E2 HI1 HI1'.
  assert (Hel : forall e, step w2 (elapse e) = _)
    by (intros e; apply elapse_world, HI2).
  assert (HIe : forall e, Inv (step w2 (elapse e)))
    by (intros e; apply step_Inv, HI2).
  assert (Htimers : forall e, timers (step w2 (elapse e)) = timers w2)
    by (intros e; rewrite Hel; reflexivity).
  assert (Hnow2 : forall e, now (step w2 (elapse e)) = now w + Z.of_N d + Z.of_N e)
    by (intros e; rewrite Hel; cbn; rewrite Hnow; reflexivity).
  clear Hel.
  split; [exact T1|]. split; [exact V1|]. split; [exact V2|].
  split; [exact T2|]. split; [|split; [|split]].
  - intros e. apply timerFired_absent; [apply HIe|].
    intros x Hx Hid. rewrite Htimers in Hx.
    destruct (Htm x Hx) as [->|Hne]; [cbn in Hid; lia|contradiction].
  - intros e He.
    refine (proj1 (toast_timer_fires _ _ _ (HIe e) _) _).
    + rewrite Htimers. exact Hin.
    + rewrite Hnow2. lia.
  - intros e He.
    refine (proj2 (toast_timer_fires _ _ _ (HIe e) _) _).
    + rewrite Htimers. exact Hin.
    + rewrite Hnow2. lia.
  - intros s. unfold visibleToasts. destruct (toast_type (toast s)); cbn; lia.
Qed.

(** * Further properties of the page *)

(** Split a task into the paths its handler can take. *)
Ltac task_cases w e :=
  let f := fresh "f" in let tn := fresh "tn" in let id := fresh "id" in
  let o := fresh "o" in let t := fresh "t" in let d := fresh "d" in
  destruct e as [f|tn| |id o|t|id o|d]; unfold exec, task;
  [ unfold handleFileSelected;
    destruct (endsWith (file_name f) ".csv") eqn:Hcsv
  | idtac
  | unfold sendDisabled, handleSendMessages;
    destruct (file (st w)) as [f|] eqn:Hfile;
    [destruct (isLoading (st w)) eqn:Hload|]
  | unfold bind, resumeUpload; cbn;
    destruct (find (fun u => Nat.eqb (up_id u) id) (uploads w)) as [u|] eqn:Hfind;
    cbn;
    [ pose proof (find_some _ _ Hfind) as [Hu0 Huid];
      unfold handleSendMessagesSettled, startPollingStatus, clearExistingPolling;
      destruct (uploadAwaited o) as [data|message] eqn:Hok;
      [destruct (up_pollingInterval u) as [c|] eqn:Hc|]
    | rewrite ?(find_none_filter _ _ Hfind) ]
  | unfold dueTimer;
    destruct (find (fun x => Pos.eqb (timer_id x) t) (timers w)) as [x|] eqn:Hfind;
    [ destruct (timer_due x <=? now w) eqn:Hdue;
      [ apply find_some in Hfind as [Hx Hxt];
        unfold bind, rearm, runCallback, pollTick, toastTimerFired;
        destruct (timer_repeat x) as [period|] eqn:Hrep;
        destruct (timer_callback x) as [fileName|] eqn:Hcb
      | ]
    | ]
  | unfold bind, resumePoll; cbn;
    destruct (find (fun p => Nat.eqb (poll_id p) id) (polls w)) as [p|] eqn:Hfind;
    cbn;
    [ apply find_some in Hfind as [Hp0 Hpid];
      unfold pollTickSettled;
      destruct (statusAwaited o) as [data|] eqn:Hok; cbn;
      [ destruct (String.eqb (data_status data) "completed") eqn:Hst;
        [|destruct (truthyNumber (data_processed data)
                    && truthyNumber (data_total data)) eqn:Hcount]
      | ]
    | rewrite ?(find_none_filter _ _ Hfind) ]
  | idtac ].

(** ** The log is append-only *)

Lemma step_logs_prepend (w : World) (e : Event) :
  exists new, logs (st (step w e)) = (new ++ logs (st w))%list.
Proof.
  unfold step. rewrite exec_bind.
  destruct (commit_frame (exec (task e) w)) as [-> _].
  apply task_logs_prepend.
Qed.

(** Whatever events the page goes through, the entries it held before
    are still there, unchanged and in the same order, behind the new
    ones. *)
Theorem logs_never_rewritten (es : list Event) : forall w : World,
  exists new, logs (st (run w es)) = (new ++ logs (st w))%list.
Proof.
  induction es as [|e es IH]; intros w; [exists []; reflexivity|].
  change (run w (e :: es)) with (run (step w e) es).
  destruct (IH (step w e)) as [new1 E1].
  destruct (step_logs_prepend w e) as [new2 E2].
  exists (new1 ++ new2)%list. rewrite E1, E2, app_assoc. reflexivity.
Qed.

(** ** Only CSV files *)

Lemma commit_timers_cases (w : World) (t : Timer) :
  In t (timers (exec commit w)) ->
  In t (timers w) \/ timer_callback t = toastCallback.
Proof.
  intros Hin. destruct (commit_effect w) as [_ H].
  destruct (H t Hin) as [H'|[_ Hp]]; [left; exact H'|right].
  unfold isPoller in Hp. destruct (timer_callback t); [discriminate|reflexivity].
Qed.

Lemma In_postponed_callback period i (t : Timer) (l : list Timer) :
  In t (map (postpone period i) l) ->
  exists x, In x l /\ timer_callback t = timer_callback x
            /\ timer_repeat t = timer_repeat x /\ timer_id t = timer_id x.
Proof.
  intros Hin. apply in_map_iff in Hin as [x [<- Hin]].
  exists x. unfold postpone. destruct (Pos.eqb (timer_id x) i); auto.
Qed.

(** Take apart membership in the lists a task has touched. *)
Ltac members :=
  repeat match goal with
    | H : In _ (filter _ _) |- _ => apply filter_In in H; destruct H
    | H : In _ (_ :: _) |- _ => destruct H as [H|H]; [subst|]
    | H : _ = ?t \/ In ?t _ |- _ => destruct H as [H|H]; [subst|]
    | H : In _ (map (postpone _ _) _) |- _ =>
        let x := fresh "x" in
        let Hcb := fresh "Hcb" in
        let Hrep := fresh "Hrep" in
        let Hid := fresh "Hid" in
        apply In_postponed_callback in H;
        destruct H as [x [H [Hcb [Hrep Hid]]]]
    end;
  cbn in *; try discriminate;
  repeat match goal with
    | H : Some _ = Some _ |- _ => injection H as H; subst
    | H : pollCallback _ = pollCallback _ |- _ => injection H as H; subst
    end.

Lemma task_CsvInv (w : World) (e : Event) : CsvInv w -> CsvInv (exec (task e) w).
Proof.
  intros [Hf Hu Ht Hp Hr Hs].
  task_cases w e; constructor; cbn; intros; members;
    unfold csvName in *;
    try solve [ assumption | eauto | congruence
              | eapply Hf; congruence
              | eapply Ht; [eassumption|congruence] ].
Qed.

Lemma commit_CsvInv (w : World) : CsvInv w -> CsvInv (exec commit w).
Proof.
  intros [Hf Hu Ht Hp Hr Hs].
  destruct (commit_frame w) as (E1 & _ & E2 & E3 & _ & E4).
  constructor; rewrite ?E1, ?E2, ?E3, ?E4; auto.
  intros t fileName Hin Hcb.
  destruct (commit_timers_cases w t Hin) as [H|H]; [eauto|congruence].
Qed.

Lemma reachable_CsvInv (w : World) : reachable w -> CsvInv w.
Proof.
  induction 1 as [t0|w e _ IH].
  - constructor; cbn; intros; try discriminate; contradiction.
  - unfold step. rewrite exec_bind. apply commit_CsvInv, task_CsvInv, IH.
Qed.

(** Whatever the user does, the selected file, every request the page
    has issued and the campaign snapshot bear a name that ends in
    [.csv]. *)
Theorem only_csv_names (w : World) :
  reachable w ->
  (forall f, file (st w) = Some f -> exists p, file_name f = p ++ ".csv")
  /\ (forall r, In r (requests w) -> exists p, requestFile r = p ++ ".csv")
  /\ (forall c, campaignStatus (st w) = Some c ->
        exists p, cs_fileName c = p ++ ".csv").
Proof.
  intros Hr. destruct (reachable_CsvInv w Hr) as [Hf _ _ _ Hq Hs].
  repeat split; intros; apply endsWith_spec; [apply Hf|apply Hq|apply Hs]; assumption.
Qed.

(** ** One submission at a time *)

Lemma task_loading (w : World) (e : Event) :
  (isLoading (st w) = true -> uploads w <> []) ->
  isLoading (st (exec (task e) w)) = true -> uploads (exec (task e) w) <> [].
Proof.
  intros Hl. task_cases w e; cbn; auto; try discriminate.
Qed.

Lemma reachable_loading (w : World) :
  reachable w -> isLoading (st w) = true -> uploads w <> [].
Proof.
  induction 1 as [t0|w e _ IH]; [discriminate|].
  unfold step. rewrite exec_bind.
  destruct (commit_frame (exec (task e) w)) as (-> & _ & -> & _).
  apply task_loading, IH.
Qed.

(** At most one submission is in flight; the loading flag is up exactly
    while one is, and a click on the send button then does nothing. *)
Theorem one_submission_in_flight (w : World) :
  reachable w ->
  (List.length (uploads w) <= 1)%nat
  /\ (isLoading (st w) = true <-> uploads w <> [])
  /\ (uploads w <> [] -> step w clickSend = w).
Proof.
  intros Hr. pose proof (reachable_Inv w Hr) as HI.
  pose proof (one_upload w (task_inv w HI)) as Hup. unfold uploadInv in Hup.
  assert (Hflag : uploads w <> [] -> isLoading (st w) = true).
  { destruct (uploads w) as [|u [|u' us]]; [congruence|tauto|contradiction]. }
  split; [|split; [split|]].
  - destruct (uploads w) as [|u [|u' us]]; cbn; [lia|lia|contradiction].
  - apply reachable_loading, Hr.
  - exact Hflag.
  - intros Hne. destruct HI as [_ Hct Hcp]. unfold step. rewrite exec_bind.
    assert (Ht : exec (task clickSend) w = w).
    { unfold exec, task, sendDisabled. rewrite (Hflag Hne).
      destruct (file (st w)); reflexivity. }
    rewrite Ht. apply commit_idle; assumption.
Qed.



(** ** Log ids follow the clock *)

(** Distinct clock readings give distinct ids. *)
Lemma Number_toString_inj (a b : Z) :
  Number_toString a = Number_toString b -> a = b.
Proof.
  unfold Number_toString. intros H.
  assert (Hnn : forall z, Z.to_int z <> Decimal.Pos Decimal.Nil
                          /\ Z.to_int z <> Decimal.Neg Decimal.Nil).
  { intros [|p|p]; cbn; split; try discriminate;
      intros E; injection E as E;
      exact (DecimalPos.Unsigned.to_uint_nonnil p E). }
  apply DecimalZ.to_int_inj.
  assert (E : Some (Z.to_int a) = Some (Z.to_int b)).
  { rewrite <- (NilZero.isi (Z.to_int a)) by apply Hnn.
    rewrite <- (NilZero.isi (Z.to_int b)) by apply Hnn.
    rewrite H. reflexivity. }
  congruence.
Qed.

Lemma task_logs_stamped (w : World) (e : Event) :
  let w1 := exec (task e) w in
  now w <= now w1
  /\ exists created : list (string * LogType),
       logs (st w1)
       = (map (fun c => mkLog (Number_toString (now w1)) (toLocaleTimeString (now w1))
                          (fst c) (snd c)) created
          ++ logs (st w))%list.
Proof.
  assert (Hnone : forall l : list Log, exists created : list (string * LogType),
            l = (map (fun c => mkLog (Number_toString (now w)) (toLocaleTimeString (now w))
                                 (fst c) (snd c)) created ++ l)%list)
    by (intros l; exists []; reflexivity).
  task_cases w e; cbn; (split; [lia|]); auto;
    first [ eexists [(_, _)]; reflexivity
          | eexists [(_, _); (_, _)]; reflexivity
          | exists []; reflexivity ].
Qed.

(** The ids in the log are the clock readings at which the entries
    were created: read newest first they never increase, none is
    later than the current reading, and two entries carry the same
    id only when they were created at the same reading. *)
Theorem log_ids_follow_clock (w : World) :
  reachable w ->
  (exists ts : list Z,
     map log_id (logs (st w)) = map Number_toString ts
     /\ map log_timestamp (logs (st w)) = map toLocaleTimeString ts
     /\ StronglySorted Z.ge ts
     /\ Forall (fun t => t <= now w) ts)
  /\ (forall a b, Number_toString a = Number_toString b -> a = b).
Proof.
  intros Hr. split; [|exact Number_toString_inj].
  induction Hr as [t0|w e _ (ts & Hid & Htm & Hs & Hle)].
  - exists []. repeat split; constructor.
  - unfold step. rewrite exec_bind.
    destruct (commit_frame (exec (task e) w)) as (-> & -> & _).
    destruct (task_logs_stamped w e) as (Hnow & created & ->).
    set (t1 := now (exec (task e) w)) in *.
    exists (map (fun _ => t1) created ++ ts)%list.
    rewrite !map_app, !map_map, Hid, Htm. cbn.
    split; [reflexivity|]. split; [reflexivity|].
    assert (Hle1 : Forall (fun t => t <= t1) ts).
    { eapply Forall_impl; [|exact Hle]. cbn. intros; lia. }
    split.
    + induction created as [|c cs IHc]; cbn; [exact Hs|].
      constructor; [exact IHc|].
      apply Forall_app. split.
      * apply Forall_forall. intros x Hx. apply in_map_iff in Hx as [? [<- _]]. lia.
      * eapply Forall_impl; [|exact Hle1]. cbn. intros; lia.
    + apply Forall_app. split; [|exact Hle1].
      apply Forall_forall. intros x Hx. apply in_map_iff in Hx as [? [<- _]]. lia.
Qed.

(** ** A tick of the polling loop *)

Lemma task_ShapeInv (w : World) (e : Event) :
  ShapeInv w -> ShapeInv (exec (task e) w).
Proof.
  intros [Hp Ht].
  task_cases w e; constructor; cbn; intros; members;
    try solve [ auto | congruence
              | match goal with
                | Hr : timer_repeat ?a = timer_repeat ?b,
                  Hc : timer_callback ?a = timer_callback ?b |- _ =>
                    rewrite Hr; unfold isPoller in *; rewrite Hc in *; auto
                end ].
Qed.

Lemma commit_ShapeInv (w : World) : ShapeInv w -> ShapeInv (exec commit w).
Proof.
  intros [Hp Ht].
  unfold commit, exec, bind, pollingCleanupEffect, toastClearEffect.
  destruct (sameTimer (pollingInterval (st w)) (pollingEffect w));
    [|destruct (pollingEffect w)]; cbn;
    (destruct (toastChanged w); [|constructor; cbn; intros; members; auto]);
    destruct (toastEffect w); destruct (toast_type (toast (st w))) eqn:Hty;
    cbn; rewrite ?Hty; cbn; constructor; cbn; intros; members; auto.
Qed.

Lemma reachable_ShapeInv (w : World) : reachable w -> ShapeInv w.
Proof.
  induction 1 as [t0|w e _ IH].
  - constructor; cbn; intros; contradiction.
  - unfold step. rewrite exec_bind. apply commit_ShapeInv, task_ShapeInv, IH.
Qed.

Lemma pollers_postponed period i (l : list Timer) :
  filter isPoller (map (postpone period i) l)
  = map (postpone period i) (filter isPoller l).
Proof.
  induction l as [|a l IH]; cbn; [reflexivity|].
  rewrite postpone_isPoller. destruct (isPoller a); cbn; rewrite IH; reflexivity.
Qed.

(** The armed polling loop does nothing when fired before it is due.
    Fired when due, it issues exactly one status request, for its
    campaign's file name, leaves the state as it is and stays armed,
    due 5000 ms after its previous due time. *)
Theorem tick_issues_one_request (w : World) (t : Timer) (fileName : string) :
  reachable w ->
  In t (pollers w) ->
  timer_callback t = pollCallback fileName ->
  (now w < timer_due t -> step w (timerFired (timer_id t)) = w)
  /\ (timer_due t <= now w ->
      step w (timerFired (timer_id t)) =
      mkWorld (st w) (now w) (map (postpone 5000 (timer_id t)) (timers w))
        (nextTimer w) (pollingEffect w) (toastEffect w) (toastChanged w)
        (uploads w)
        (mkPoll (nextRequest w) (timer_id t) fileName :: polls w)
        (S (nextRequest w))
        (statusRequest (timer_id t) fileName :: requests w)
      /\ pollers (step w (timerFired (timer_id t)))
         = [mkTimer (timer_id t) (timer_due t + 5000) (Some 5000)
              (pollCallback fileName)]).
Proof.
  intros Hr Hin Hcb.
  pose proof (reachable_Inv w Hr) as HI.
  pose proof (reachable_ShapeInv w Hr) as [Hshape _].
  pose proof Hin as Hin'. apply pollers_In in Hin' as [Hint Hpoll].
  pose proof (timer_by_id w t HI Hint) as Hfind.
  pose proof (Hshape t Hint Hpoll) as Hrep.
  destruct (pollers_at_most_one w HI) as [Hq|[t' Hq]];
    [rewrite Hq in Hin; contradiction|].
  assert (Ht' : t' = t) by (rewrite Hq in Hin; destruct Hin as [H|[]]; exact H).
  subst t'.
  destruct HI as [_ Hct Hcp].
  split; intros Hdue.
  - unfold step. rewrite exec_bind.
    assert (Ht : exec (task (timerFired (timer_id t))) w = w).
    { unfold exec, task, dueTimer. rewrite Hfind.
      destruct (Z.leb_spec (timer_due t) (now w)); [lia|reflexivity]. }
    rewrite Ht. apply commit_idle; assumption.
  - assert (E : step w (timerFired (timer_id t)) =
      mkWorld (st w) (now w) (map (postpone 5000 (timer_id t)) (timers w))
        (nextTimer w) (pollingEffect w) (toastEffect w) (toastChanged w)
        (uploads w)
        (mkPoll (nextRequest w) (timer_id t) fileName :: polls w)
        (S (nextRequest w))
        (statusRequest (timer_id t) fileName :: requests w)).
    { unfold step. rewrite exec_bind.
      assert (Ht : exec (task (timerFired (timer_id t))) w =
        mkWorld (st w) (now w) (map (postpone 5000 (timer_id t)) (timers w))
          (nextTimer w) (pollingEffect w) (toastEffect w) (toastChanged w)
          (uploads w)
          (mkPoll (nextRequest w) (timer_id t) fileName :: polls w)
          (S (nextRequest w))
          (statusRequest (timer_id t) fileName :: requests w)).
      { unfold exec, task, dueTimer. rewrite Hfind.
        destruct (Z.leb_spec (timer_due t) (now w)); [|lia].
        unfold bind, rearm, runCallback, pollTick. rewrite Hrep, Hcb.
        reflexivity. }
      rewrite Ht. apply commit_idle; assumption. }
    split; [exact E|]. rewrite E. unfold pollers in *. cbn.
    rewrite pollers_postponed, Hq. cbn. unfold postpone.
    rewrite Pos.eqb_refl, Hrep, Hcb. reflexivity.
Qed.


(** ** Handles and the timers they name *)

Lemma same_id_same_timer (w : World) (a b : Timer) :
  Inv w -> In a (timers w) -> In b (timers w) ->
  timer_id a = timer_id b -> a = b.
Proof.
  intros HI Ha Hb E.
  pose proof (timer_by_id w a HI Ha) as Fa.
  pose proof (timer_by_id w b HI Hb) as Fb.
  rewrite E in Fa. congruence.
Qed.

Lemma task_fresh_uploads (w : World) (e : Event) :
  Inv w ->
  (forall u c, In u (uploads w) -> up_pollingInterval u = Some c ->
     (c < nextTimer w)%positive) ->
  forall u c, In u (uploads (exec (task e) w)) ->
    up_pollingInterval u = Some c -> (c < nextTimer (exec (task e) w))%positive.
Proof.
  intros [[Ht Hp He Hto Hpo Hnd Hpk Htk Hup] Hct Hcp] Hfu.
  task_cases w e; cbn; intros; members; eauto;
    match goal with
    | Hin : In ?u (uploads w), Hcl : up_pollingInterval ?u = Some ?c |- _ =>
        pose proof (Hfu u c Hin Hcl); lia
    end.
Qed.

Lemma task_handle_not_toast (w : World) (e : Event) :
  Inv w ->
  (forall i, isHandle i w -> toastEffect w <> Some i) ->
  forall i, isHandle i (exec (task e) w) ->
    toastEffect (exec (task e) w) <> Some i.
Proof.
  intros [[Ht Hp He Hto Hpo Hnd Hpk Htk Hup] Hct Hcp] Hnt i.
  assert (Hh1 : pollingInterval (st w) = Some i -> toastEffect w <> Some i)
    by (intros; apply Hnt; left; assumption).
  assert (Hh2 : pollingEffect w = Some i -> toastEffect w <> Some i)
    by (intros; apply Hnt; right; left; assumption).
  assert (Hh3 : forall p, In p (polls w) -> poll_interval p = i ->
                  toastEffect w <> Some i)
    by (intros; apply Hnt; right; right; left; eauto).
  assert (Hh4 : forall u, In u (uploads w) -> up_pollingInterval u = Some i ->
                  toastEffect w <> Some i)
    by (intros; apply Hnt; right; right; right; eauto).
  unfold isHandle.
  task_cases w e; cbn; intros [H|[H|[[q [Hq H]]|[q [Hq H]]]]]; members; eauto;
    first [ intros E; pose proof (Hto _ E); lia
          | assert (Hpx : isPoller x = true)
              by (unfold isPoller; rewrite Hcb; reflexivity);
            destruct (Hpk x Hx Hpx); auto ].
Qed.

Lemma task_handle_armed (w : World) (e : Event) :
  Inv w -> ShapeInv w ->
  (forall i, pollingInterval (st w) = Some i ->
     exists t, In t (timers w) /\ timer_id t = i /\ isPoller t = true) ->
  forall i, pollingInterval (st (exec (task e) w)) = Some i ->
    exists t, In t (timers (exec (task e) w)) /\ timer_id t = i
              /\ isPoller t = true.
Proof.
  intros HI [Hshp Hsht] Ha i.
  task_cases w e; cbn; intros H; members; eauto;
    destruct (Ha i H) as (t0 & Hin0 & Hid0 & Hp0).
  - exists (postpone period (timer_id x) t0).
    rewrite postpone_id, postpone_isPoller. auto using in_map.
  - exists (postpone period (timer_id x) t0).
    rewrite postpone_id, postpone_isPoller. auto using in_map.
  - exfalso. assert (Hpx : isPoller x = true)
      by (unfold isPoller; rewrite Hcb; reflexivity).
    specialize (Hshp x Hx Hpx). congruence.
  - exists t0. split; [|auto]. apply In_cleared. split; [exact Hin0|].
    intros E. assert (t0 = x) by (apply (same_id_same_timer w); auto).
    subst t0. unfold isPoller in Hp0. rewrite Hcb in Hp0. discriminate.
Qed.

Lemma task_toast_armed (w : World) (e : Event) :
  Inv w -> ShapeInv w -> ArmedInv w ->
  toastChanged (exec (task e) w) = false ->
  match toast_type (toast (st (exec (task e) w))) with
  | Some _ => exists t, In t (timers (exec (task e) w))
                /\ toastEffect (exec (task e) w) = Some (timer_id t)
                /\ isPoller t = false
                /\ timer_due t <= now (exec (task e) w) + 3000
  | None => toastEffect (exec (task e) w) = None
  end.
Proof.
  intros HI [Hshp Hsht] [Hfu Hnt Ha Hta].
  pose proof (committed_toast w HI) as Hct. specialize (Hta Hct).
  task_cases w e; cbn; intros Hch; try discriminate; try exact Hta;
    try (rewrite Hct in Hch; discriminate);
    destruct (toast_type (toast (st w))); try exact Hta;
    destruct Hta as (tm & Hinm & Htem & Hpm & Hduem).
  - (* a polling loop fired *)
    assert (Hpx : isPoller x = true)
      by (unfold isPoller; rewrite Hcb; reflexivity).
    assert (Hne : timer_id tm <> timer_id x).
    { intros E. assert (tm = x) by (apply (same_id_same_timer w); auto).
      congruence. }
    exists tm. split; [|auto].
    replace tm with (postpone period (timer_id x) tm); [apply in_map, Hinm|].
    unfold postpone. destruct (Pos.eqb_spec (timer_id tm) (timer_id x));
      [contradiction|reflexivity].
  - exfalso. assert (Hpx : isPoller x = true)
      by (unfold isPoller; rewrite Hcb; reflexivity).
    specialize (Hshp x Hx Hpx). congruence.
  - (* a completed tick cleared its loop *)
    exists tm. split; [|auto]. apply In_cleared. split; [exact Hinm|].
    intros E. apply (Hnt (poll_interval p)); [|congruence].
    right. right. left. eauto.
  - (* the clock advanced *)
    exists tm. repeat split; auto. lia.
Qed.





Lemma task_ArmedInv (w : World) (e : Event) :
  Inv w -> ShapeInv w -> ArmedInv w -> ArmedInv (exec (task e) w).
Proof.
  intros HI HS HA. constructor.
  - apply task_fresh_uploads; [exact HI|apply (fresh_uploads w HA)].
  - apply task_handle_not_toast; [exact HI|apply (handle_not_toast w HA)].
  - apply task_handle_armed; [exact HI|exact HS|apply (handle_armed w HA)].
  - apply task_toast_armed; assumption.
Qed.

Lemma pollingCleanupEffect_ArmedInv (w : World) :
  TaskInv w -> ArmedInv w -> ArmedInv (exec pollingCleanupEffect w).
Proof.
  intros [Ht Hp He Hto Hpo Hnd Hpk Htk Hup] [Hfu Hnt Ha Hta].
  unfold exec, pollingCleanupEffect.
  destruct (sameTimer (pollingInterval (st w)) (pollingEffect w)) eqn:Hs;
    [constructor; assumption|].
  assert (Hne : pollingInterval (st w) <> pollingEffect w).
  { intros E. apply sameTimer_spec in E. congruence. }
  assert (Hh : forall i,
    isHandle i (mkWorld (st w) (now w) (timers w) (nextTimer w)
                  (pollingInterval (st w)) (toastEffect w) (toastChanged w)
                  (uploads w) (polls w) (nextRequest w) (requests w)) ->
    isHandle i w).
  { intros i [H|[H|H]]; [left; exact H|left; exact H|right; right; exact H]. }
  destruct (pollingEffect w) as [pe|] eqn:Hpe; cbn; constructor; cbn; auto.
  - intros i Hi. destruct (Ha i Hi) as (tm & Hin & Hid & Hpm).
    exists tm. split; [|auto]. apply In_cleared. split; [exact Hin|congruence].
  - intros Hc. specialize (Hta Hc).
    destruct (toast_type (toast (st w))); [|exact Hta].
    destruct Hta as (tm & Hin & Hte & Hpm & Hdue).
    exists tm. split; [|auto]. apply In_cleared. split; [exact Hin|].
    intros E. apply (Hnt pe); [right; left; exact Hpe|congruence].
Qed.

Lemma toastClearEffect_ArmedInv (w : World) :
  TaskInv w -> ArmedInv w -> ArmedInv (exec toastClearEffect w).
Proof.
  intros [Ht Hp He Hto Hpo Hnd Hpk Htk Hup] [Hfu Hnt Ha Hta].
  assert (Hfresh : forall i, isHandle i w -> (i < nextTimer w)%positive).
  { intros i [H|[H|[[p [Hin H]]|[u [Hin H]]]]]; eauto.
    subst i. auto. }
  unfold exec, toastClearEffect.
  destruct (toastChanged w) eqn:Hch; [|constructor; cbn; auto].
  assert (Hh : forall (i : TimerId) ts nt te,
    isHandle i (mkWorld (st w) (now w) ts nt (pollingEffect w) te false
                  (uploads w) (polls w) (nextRequest w) (requests w)) ->
    isHandle i w).
  { intros i ts nt te H. exact H. }
  destruct (toastEffect w) as [e|] eqn:Hte;
    destruct (toast_type (toast (st w))) as [ty|] eqn:Hty;
    cbn; rewrite ?Hty; cbn; constructor; cbn; rewrite ?Hty; auto;
    try solve
      [ intros u c Hin Hcl; pose proof (Hfu u c Hin Hcl); lia
      | intros i Hi E; injection E as <-;
        pose proof (Hfresh _ (Hh _ _ _ _ Hi)); lia
      | discriminate
      | intros _; eexists; split; [left; reflexivity|];
        cbn; repeat split; lia
      | intros i Hi; destruct (Ha i Hi) as (tm & Hin & Hid & Hpm);
        exists tm; split; [|auto]; try right;
        try (apply In_cleared; split); auto;
        intros E; apply (Hnt i); [left; exact Hi|congruence]
      | intros i Hi; destruct (Ha i Hi) as (tm & Hin & Hid & Hpm);
        exists tm; split; [|auto]; try right; exact Hin ].
  intros _. apply Hta. reflexivity.
Qed.

Lemma commit_ArmedInv (w : World) :
  TaskInv w -> ArmedInv w -> ArmedInv (exec commit w).
Proof.
  intros HT HA. unfold commit. rewrite exec_bind.
  apply toastClearEffect_ArmedInv.
  - apply pollingCleanupEffect_Inv, HT.
  - apply pollingCleanupEffect_ArmedInv; assumption.
Qed.

Lemma reachable_ArmedInv (w : World) : reachable w -> ArmedInv w.
Proof.
  induction 1 as [t0|w e Hr IH].
  - constructor; cbn; intros; try discriminate; try contradiction; auto.
  - pose proof (reachable_Inv w Hr) as HI.
    unfold step. rewrite exec_bind. apply commit_ArmedInv.
    + apply task_TaskInv, HI.
    + apply task_ArmedInv; [exact HI|apply reachable_ShapeInv, Hr|exact IH].
Qed.




(** The state's handle is set exactly while a polling loop is armed,
    and it is that loop's id. *)
Theorem handle_names_armed_loop (w : World) (i : TimerId) :
  reachable w ->
  (pollingInterval (st w) = Some i
   <-> exists t, pollers w = [t] /\ timer_id t = i)
  /\ (pollingInterval (st w) = None <-> pollers w = []).
Proof.
  intros Hr. pose proof (reachable_Inv w Hr) as HI.
  pose proof (reachable_ArmedInv w Hr) as HA.
  assert (Hto : forall j, pollingInterval (st w) = Some j ->
                  exists t, pollers w = [t] /\ timer_id t = j).
  { intros j Hj. destruct (handle_armed w HA j Hj) as (t & Hin & Hid & Hp).
    assert (Hin' : In t (pollers w)) by (apply pollers_In; auto).
    destruct (pollers_at_most_one w HI) as [Hq|[t' Hq]]; rewrite Hq in Hin'.
    - contradiction.
    - destruct Hin' as [->|[]]. eauto. }
  assert (Hfrom : forall t, pollers w = [t] ->
                    pollingInterval (st w) = Some (timer_id t)).
  { intros t Hq. apply pollers_handle; [exact HI|]. rewrite Hq. left. reflexivity. }
  split; split.
  - apply Hto.
  - intros (t & Hq & <-). apply Hfrom, Hq.
  - intros Hn. destruct (pollers_at_most_one w HI) as [Hq|[t Hq]]; [exact Hq|].
    rewrite (Hfrom t Hq) in Hn. discriminate.
  - intros Hq. destruct (pollingInterval (st w)) as [j|] eqn:Hj; [|reflexivity].
    destruct (Hto j eq_refl) as (t & Hq' & _). congruence.
Qed.

Lemma toastTimers_at_most_one (w : World) :
  Inv w -> toastTimers w = [] \/ exists t, toastTimers w = [t].
Proof.
  intros HI.
  assert (Hnd : NoDup (map timer_id (toastTimers w))).
  { apply NoDup_map_filter, (distinct_timers w), HI. }
  assert (Hk : forall t, In t (toastTimers w) -> toastEffect w = Some (timer_id t)).
  { intros t Hin. apply filter_In in Hin as [Hin Hp].
    apply (toast_known w (task_inv w HI) t Hin).
    destruct (isPoller t); [discriminate|reflexivity]. }
  destruct (toastTimers w) as [|a [|b l]]; [left; reflexivity|right; eauto|].
  exfalso. inversion Hnd as [|? ? Hn _]; subst. apply Hn. left.
  pose proof (Hk a (or_introl eq_refl)).
  pose proof (Hk b (or_intror (or_introl eq_refl))). congruence.
Qed.

(** A notification in the slot always has its clear timer armed: the
    one toast timer there is, due at most 3000 ms from now, and once
    due its firing empties the slot.  An empty slot has no timer. *)
Theorem visible_toast_has_timer (w : World) :
  reachable w ->
  match toast_type (toast (st w)) with
  | Some _ =>
      exists t, toastTimers w = [t] /\ timer_repeat t = None
        /\ timer_due t <= now w + 3000
        /\ (timer_due t <= now w ->
            visibleToasts (st (step w (timerFired (timer_id t)))) = []
            /\ toastTimers (step w (timerFired (timer_id t))) = [])
  | None => toastTimers w = []
  end.
Proof.
  intros Hr. pose proof (reachable_Inv w Hr) as HI.
  pose proof (toast_armed w (reachable_ArmedInv w Hr) (committed_toast w HI)) as Hta.
  pose proof (reachable_ShapeInv w Hr) as [_ Hone].
  destruct (toast_type (toast (st w))) as [ty|].
  - destruct Hta as (t & Hin & Hte & Hp & Hdue).
    assert (Hin' : In t (toastTimers w))
      by (apply filter_In; split; [exact Hin|rewrite Hp; reflexivity]).
    destruct (toastTimers_at_most_one w HI) as [Hq|[t' Hq]]; rewrite Hq in Hin'.
    + contradiction.
    + destruct Hin' as [->|[]]. exists t.
      pose proof (Hone t Hin Hp) as Hrep.
      split; [exact Hq|]. split; [exact Hrep|]. split; [exact Hdue|].
      intros Hnow. destruct t as [n due rep cb]. cbn in *. subst rep.
      unfold isPoller in Hp. cbn in Hp. destruct cb; [discriminate|].
      exact (proj2 (toast_timer_fires w n due HI Hin) Hnow).
  - apply filter_nil. intros x Hx.
    destruct (isPoller x) eqn:Hp; [reflexivity|].
    pose proof (toast_known w (task_inv w HI) x Hx Hp). congruence.
Qed.

(** Unmounting the page leaves none of its timers armed. *)
Theorem unmount_clears_timers (w : World) :
  reachable w -> timers (exec unmount w) = [].
Proof.
  intros Hr. destruct (reachable_Inv w Hr) as [HT Hct Hcp].
  assert (Hall : forall x, In x (timers (exec unmount w)) -> False).
  { intros x. unfold unmount, exec, bind, clearExistingPolling.
    intros Hx.
    assert (Hin : In x (timers w)
                  /\ pollingEffect w <> Some (timer_id x)
                  /\ toastEffect w <> Some (timer_id x)).
    { destruct (pollingEffect w) as [pe|]; destruct (toastEffect w) as [te|];
        cbn in Hx; cleared; repeat split; auto; congruence. }
    destruct Hin as (Hin & Hp & Ht).
    destruct (isPoller x) eqn:Hpoll.
    - destruct (poller_known w HT x Hin Hpoll); congruence.
    - apply Ht. apply (toast_known w HT x Hin Hpoll). }
  destruct (timers (exec unmount w)) as [|a l]; [reflexivity|].
  exfalso. apply (Hall a). left. reflexivity.
Qed.

(** ** The texts of the toast *)

Lemma task_toastTexts (w : World) (e : Event) :
  In (toast (st w)) toastTexts -> In (toast (st (exec (task e) w))) toastTexts.
Proof.
  intros H. task_cases w e; cbn; auto; unfold toastTexts; cbn; tauto.
Qed.

(** The slot only ever holds the empty toast or one of the four fixed
    notifications: no text of the backend, of the file or of the
    template reaches it.  This does not rest on what the button lets
    through: a click that reaches [handleSendMessages], in whatever
    render, leaves one of these toasts as well. *)
Theorem toast_texts (w : World) :
  reachable w ->
  In (toast (st w)) toastTexts
  /\ forall s, In (toast (st (exec (handleSendMessages s ;; commit) w))) toastTexts.
Proof.
  intros Hr.
  assert (Hin : In (toast (st w)) toastTexts).
  { induction Hr as [t0|w e _ IH]; [left; reflexivity|].
    unfold step. rewrite exec_bind.
    destruct (commit_frame (exec (task e) w)) as [-> _].
    apply task_toastTexts, IH. }
  split; [exact Hin|].
  intros s. rewrite exec_bind.
  destruct (commit_frame (exec (handleSendMessages s) w)) as [-> _].
  unfold exec, handleSendMessages. destruct (file s) as [f|]; cbn.
  - exact Hin.
  - unfold toastTexts. cbn. tauto.
Qed.

(** ** The campaign is the file that was sent *)

Lemma inflight_step (w : World) (u : Upload) (e : Event) :
  uploads w = [u] -> isLoading (st w) = true -> settlesUpload e = false ->
  uploads (step w e) = [u] /\ isLoading (st (step w e)) = true.
Proof.
  intros Hu Hl He. unfold step. rewrite exec_bind.
  destruct (commit_frame (exec (task e) w)) as (-> & _ & -> & _).
  destruct e; try discriminate; unfold exec, task; cbn.
  - unfold handleFileSelected.
    destruct (endsWith (file_name f) ".csv"); cbn; auto.
  - auto.
  - unfold sendDisabled. rewrite Hl. destruct (file (st w)); cbn; auto.
  - unfold dueTimer.
    destruct (find (fun x => Pos.eqb (timer_id x) t) (timers w)) as [x|]; cbn; auto.
    destruct (timer_due x <=? now w); cbn; auto.
    unfold bind, rearm, runCallback, pollTick, toastTimerFired.
    destruct (timer_repeat x); destruct (timer_callback x); cbn; auto.
  - unfold bind, resumePoll; cbn.
    destruct (find (fun p => Nat.eqb (poll_id p) id) (polls w)) as [p|]; cbn; auto.
    unfold pollTickSettled.
    destruct (statusAwaited o) as [data|]; cbn; auto.
    destruct (String.eqb (data_status data) "completed"); cbn; auto.
    destruct (truthyNumber (data_processed data) && truthyNumber (data_total data));
      cbn; auto.
  - auto.
Qed.

Lemma inflight_run (es : list Event) : forall (w : World) (u : Upload),
  uploads w = [u] -> isLoading (st w) = true ->
  forallb (fun e => negb (settlesUpload e)) es = true ->
  uploads (run w es) = [u].
Proof.
  induction es as [|e es IH]; intros w u Hu Hl Hes; [exact Hu|].
  cbn in Hes. apply andb_prop in Hes as [He Hes]. apply negb_true_iff in He.
  destruct (inflight_step w u e Hu Hl He) as [Hu' Hl'].
  change (run w (e :: es)) with (run (step w e) es). apply IH; assumption.
Qed.

Lemma clickSend_sent (w : World) (f : File) :
  Inv w -> file (st w) = Some f -> isLoading (st w) = false ->
  uploads (step w clickSend)
  = [mkUpload (nextRequest w) f (templateName (st w)) (pollingInterval (st w))]
  /\ isLoading (st (step w clickSend)) = true
  /\ requests (step w clickSend)
     = uploadRequest f (templateName (st w)) :: requests w.
Proof.
  intros HI Hf Hl.
  assert (Hnone : uploads w = []).
  { pose proof (one_upload w (task_inv w HI)) as Hup. unfold uploadInv in Hup.
    destruct (uploads w) as [|u [|u' us]]; [reflexivity| |contradiction].
    destruct Hup as [Hup _]. congruence. }
  unfold step. rewrite exec_bind.
  destruct (commit_frame (exec (task clickSend) w)) as (-> & _ & -> & _ & _ & ->).
  unfold exec, task, sendDisabled, handleSendMessages. rewrite Hf, Hl. cbn.
  rewrite Hnone. repeat split.
Qed.

Lemma acknowledged_step (w : World) (id : nat) (u : Upload)
    (o : UploadOutcome) (data : UploadData) :
  Inv w ->
  find (fun u => Nat.eqb (up_id u) id) (uploads w) = Some u ->
  uploadAwaited o = inl data ->
  pollers (step w (uploadSettled id o))
  = [mkTimer (nextTimer w) (now w + 5000) (Some 5000)
       (pollCallback (file_name (up_file u)))]
  /\ campaignStatus (st (step w (uploadSettled id o)))
     = Some (mkCampaignStatus (file_name (up_file u)) "processing"
               None None None None None).
Proof.
  intros HI Hfind Hok.
  destruct (uploadSettled_started w id u o data Hfind Hok) as (Ht & Hpe & Hte & _).
  set (e := uploadSettled id o) in *.
  set (started := mkTimer (nextTimer w) (now w + 5000) (Some 5000)
                    (pollCallback (file_name (up_file u)))) in *.
  assert (HI' : Inv (step w e)) by (apply step_Inv, HI).
  assert (Hin : In started (pollers (step w e))).
  { apply pollers_In. split; [|reflexivity].
    unfold step. rewrite exec_bind. apply commit_keeps.
    - rewrite Ht. left. reflexivity.
    - rewrite Hpe. intros E.
      pose proof (fresh_pollingEffect w (task_inv w HI) _ E) as Hlt.
      cbn in Hlt. lia.
    - rewrite Hte. intros E.
      pose proof (fresh_toastEffect w (task_inv w HI) _ E) as Hlt.
      cbn in Hlt. lia. }
  split.
  - destruct (pollers_at_most_one _ HI') as [H|[t H]]; rewrite H in Hin.
    + contradiction.
    + destruct Hin as [<-|[]]. exact H.
  - unfold step. rewrite exec_bind.
    destruct (commit_frame (exec (task e) w)) as [-> _].
    unfold e, exec, task, bind, resumeUpload. cbn. rewrite Hfind.
    unfold handleSendMessagesSettled. rewrite Hok.
    unfold startPollingStatus, clearExistingPolling.
    destruct (up_pollingInterval u); reflexivity.
Qed.

(** A click on the enabled send button submits the selected file under
    the template name of that moment.  Whatever happens while the
    request is in flight (another file is selected, the template name
    is edited, timers fire, ticks settle), the acknowledged campaign is
    tracked under the name of the file that was sent: the snapshot is
    reset to [processing] for that name and the one loop armed polls
    it, first due 5000 ms after the acknowledgement. *)
Theorem campaign_tracks_submitted_file
    (w : World) (f : File) (es : list Event) (o : UploadOutcome)
    (data : UploadData) :
  reachable w ->
  file (st w) = Some f -> isLoading (st w) = false ->
  forallb (fun e => negb (settlesUpload e)) es = true ->
  uploadAwaited o = inl data ->
  let w1 := run (step w clickSend) es in
  let w' := step w1 (uploadSettled (nextRequest w) o) in
  requests (step w clickSend) = uploadRequest f (templateName (st w)) :: requests w
  /\ campaignStatus (st w')
     = Some (mkCampaignStatus (file_name f) "processing" None None None None None)
  /\ pollers w'
     = [mkTimer (nextTimer w1) (now w1 + 5000) (Some 5000)
          (pollCallback (file_name f))].
Proof.
  intros Hr Hf Hl Hes Hok. cbv zeta.
  pose proof (reachable_Inv w Hr) as HI.
  destruct (clickSend_sent w f HI Hf Hl) as (Hu & Hl' & Hq).
  split; [exact Hq|].
  pose proof (inflight_run es _ _ Hu Hl' Hes) as Hu1.
  assert (Hr1 : reachable (run (step w clickSend) es))
    by (apply reachable_run; constructor; exact Hr).
  set (w1 := run (step w clickSend) es) in *. clearbody w1.
  assert (Hfind : find (fun u => Nat.eqb (up_id u) (nextRequest w)) (uploads w1)
                  = Some (mkUpload (nextRequest w) f (templateName (st w))
                            (pollingInterval (st w)))).
  { rewrite Hu1. cbn. rewrite Nat.eqb_refl. reflexivity. }
  destruct (acknowledged_step w1 _ _ o data (reachable_Inv w1 Hr1) Hfind Hok)
    as [Hp Hc].
  split; [exact Hc|exact Hp].
Qed.


End Controller.

(** * The properties on concrete runs *)

Lemma reachable_ticking : reachable utcTimeString (ticking utcTimeString).
Proof.
  unfold ticking, polling, uploading.
  repeat apply reachable_run. apply reachable_init.
Qed.

Lemma reachable_uploading : reachable utcTimeString (uploading utcTimeString).
Proof.
  unfold uploading. apply reachable_run, reachable_init.
Qed.

(** Selecting [notes.txt] and then [contacts.csv] on the freshly
    mounted page. *)
Example select_notes_then_contacts :
  let w1 := step utcTimeString (init 1000) (selectFile notes) in
  let w2 := step utcTimeString w1 (selectFile contacts) in
  file (st w1) = None /\ logs (st w1) = []
  /\ visibleToasts (st w1) = [mkToast "Please upload a CSV file" (Some toastError)]
  /\ file (st w2) = Some contacts
  /\ map log_message (logs (st w2)) = ["File selected: contacts.csv"].
Proof.
  vm_compute. repeat split.
Qed.

(** The acknowledged submission of [contacts.csv]: its log, newest
    first, and the ids of the entries. *)
Example polling_log :
  map (fun l => (log_id l, log_message l)) (logs (st (polling utcTimeString)))
  = [("1000", "Checking campaign status...");
     ("1000", "Campaign started: queued");
     ("1000", "Uploading file and starting campaign...");
     ("1000", "File selected: contacts.csv")]
  /\ campaignStatus (st (polling utcTimeString))
     = Some (mkCampaignStatus "contacts.csv" "processing" None None None None None)
  /\ visibleToasts (st (polling utcTimeString))
     = [mkToast "Campaign started successfully" (Some toastSuccess)].
Proof.
  vm_compute. repeat split.
Qed.

(** The first tick of that campaign reports [0] of [20]: the snapshot
    is updated, the log is not. *)
Example ticking_zero_of_twenty :
  let w' := step utcTimeString (ticking utcTimeString)
              (statusSettled 1 (progress 0 20)) in
  logs (st w') = logs (st (ticking utcTimeString))
  /\ campaignStatus (st w')
     = Some (mkCampaignStatus "contacts.csv" "processing" (Some 0) (Some 20)
               None None None).
Proof.
  vm_compute. repeat split.
Qed.

(** A submit attempt on the freshly mounted page. *)
Lemma handleSendMessages_without_file_witness :
  exec (handleSendMessages utcTimeString initialState) (init 0) =
  mkWorld
    (mkState None [] false
       (mkToast "Please select a CSV file first" (Some toastError))
       None None "scalixity_marketing_2")
    0 [] 1%positive None None true [] [] O [].
Proof.
  exact (handleSendMessages_without_file utcTimeString initialState (init 0) eq_refl).
Defined.

(** The backend answers HTTP 400 with [detail: "Invalid file format"]:
    the log entry carries the detail, the notification does not. *)
Lemma invalid_format_toast_omits_detail :
  let w' := step utcTimeString (uploading utcTimeString)
              (uploadSettled 0 invalidFormat) in
  map log_message (firstn 1 (logs (st w'))) = ["Error: Invalid file format"]
  /\ toast (st w') = mkToast "Failed to start campaign" (Some toastError)
  /\ includes (toast_message (toast (st w'))) "Invalid file format" = false.
Proof.
  vm_compute. repeat split.
Qed.

Lemma handleSendMessagesSettled_failure_witness :
  let u := mkUpload 0 contacts "scalixity_marketing_2" None in
  let w' := exec (handleSendMessagesSettled utcTimeString u invalidFormat)
              (uploading utcTimeString) in
  map log_message (firstn 1 (logs (st w'))) = ["Error: Invalid file format"]
  /\ toast (st w') = mkToast "Failed to start campaign" (Some toastError)
  /\ isLoading (st w') = false
  /\ pollers w' = [] /\ campaignStatus (st w') = None.
Proof.
  intros u w'.
  destruct (handleSendMessagesSettled_failure utcTimeString u invalidFormat
              (uploading utcTimeString)
              (or_intror (ex_intro _ _ eq_refl)))
    as (message & E & _ & _ & Hd & _).
  assert (Hm : message = "Invalid file format")
    by (apply (Hd None); [reflexivity|discriminate]).
  subst message. fold w' in E. rewrite E. vm_compute. repeat split.
Defined.

Lemma reachable_resending : reachable utcTimeString (resending utcTimeString).
Proof.
  unfold resending, polling, uploading.
  repeat apply reachable_run. apply reachable_init.
Qed.

(** A second submission is acknowledged while the loop of the first is
    running: the old loop is gone and the new one is the only one, at
    the end of the task as after the step. *)
Lemma single_poller_witness :
  let w := resending utcTimeString in
  let e := uploadSettled 1 queued in
  pollers w = [mkTimer 1%positive 6000 (Some 5000) (pollCallback "contacts.csv")]
  /\ pollers (exec (task utcTimeString e) w)
     = [mkTimer 3%positive 8000 (Some 5000) (pollCallback "contacts.csv")]
  /\ pollers (step utcTimeString w e)
     = [mkTimer 3%positive 8000 (Some 5000) (pollCallback "contacts.csv")]
  /\ pollingInterval (st (step utcTimeString w e)) = Some 3%positive.
Proof.
  intros w e.
  assert (Hfind : find (fun u => Nat.eqb (up_id u) 1) (uploads w)
                  = Some (mkUpload 1 contacts "scalixity_marketing_2"
                            (Some 1%positive)))
    by (vm_compute; reflexivity).
  destruct (single_poller utcTimeString w reachable_resending) as (_ & _ & H).
  destruct (H 1%nat _ (mkUploadData (Some "queued") None) Hfind)
    as (_ & _ & _ & H1 & H2 & H3 & _).
  change (uploadSettled 1 (uploadResponse true
                             (inl (mkUploadData (Some "queued") None))))
    with e in H1, H2, H3.
  vm_compute in H1, H2, H3. vm_compute. repeat split; assumption.
Defined.


(** The first tick of that campaign is answered with a status other
    than 2xx, and the second one meets a transport error: each only
    adds the error entry, whatever the body says. *)
Lemma failed_tick_only_logs_witness :
  let w := ticking utcTimeString in
  let w' := step utcTimeString w (statusSettled 1 serverError) in
  let w'' := step utcTimeString w (statusSettled 1 statusRejected) in
  (map log_message (firstn 1 (logs (st w'))) = ["Error checking campaign status"]
   /\ List.length (logs (st w')) = S (List.length (logs (st w)))
   /\ timers w' = timers w /\ campaignStatus (st w') = campaignStatus (st w)
   /\ toast (st w') = toast (st w) /\ requests w' = requests w
   /\ pollers w' = [mkTimer 1%positive 11000 (Some 5000)
                      (pollCallback "contacts.csv")])
  /\ w'' = w'.
Proof.
  intros w w' w''.
  assert (Hfind : find (fun p => Nat.eqb (poll_id p) 1) (polls w)
                  = Some (mkPoll 1 1%positive "contacts.csv"))
    by (vm_compute; reflexivity).
  pose proof (failed_tick_only_logs utcTimeString w 1%nat _ serverError
                reachable_ticking Hfind
                (or_intror (or_introl (ex_intro _ _ eq_refl)))) as E.
  pose proof (failed_tick_only_logs utcTimeString w 1%nat _ statusRejected
                reachable_ticking Hfind (or_introl eq_refl)) as E'.
  fold w' in E. fold w'' in E'. split.
  - rewrite E. vm_compute. repeat split.
  - rewrite E, E'. reflexivity.
Defined.

(** Two rejected selections 1200 ms apart on the freshly mounted
    page. *)
Lemma toast_replaced_within_window_witness :
  let w1 := showToast "Please upload a CSV file" toastError (init 0) in
  let w2 := showToast "Please select a CSV file first" toastError
              (step utcTimeString w1 (elapse 1200)) in
  toastTimers w1 = [mkTimer 1%positive 3000 None toastCallback]
  /\ toastTimers w2 = [mkTimer 2%positive 4200 None toastCallback]
  /\ visibleToasts (st w2)
     = [mkToast "Please select a CSV file first" (Some toastError)].
Proof.
  intros w1 w2.
  assert (Hd : Z.of_N 1200 < 3000) by reflexivity.
  destruct (toast_replaced_within_window utcTimeString (init 0)
              "Please upload a CSV file" "Please select a CSV file first"
              toastError toastError 1200%N
              (reachable_init utcTimeString 0) Hd)
    as (H1 & _ & H3 & H4 & _).
  fold w1 in H1. fold w1 w2 in H3, H4.
  split; [exact H1|]. split; [exact H4|exact H3].
Defined.

(** * Further properties on concrete runs *)

Lemma only_csv_names_witness :
  exists p, requestFile (statusRequest 1%positive "contacts.csv") = p ++ ".csv".
Proof.
  apply (proj1 (proj2 (only_csv_names utcTimeString (ticking utcTimeString)
                         reachable_ticking))).
  vm_compute. left. reflexivity.
Defined.

Lemma one_submission_in_flight_witness :
  (List.length (uploads (uploading utcTimeString)) <= 1)%nat
  /\ (isLoading (st (uploading utcTimeString)) = true
      <-> uploads (uploading utcTimeString) <> [])
  /\ (uploads (uploading utcTimeString) <> [] ->
      step utcTimeString (uploading utcTimeString) clickSend
      = uploading utcTimeString).
Proof.
  exact (one_submission_in_flight utcTimeString (uploading utcTimeString)
           reachable_uploading).
Defined.

Lemma log_ids_follow_clock_witness :
  exists ts : list Z,
    map log_id (logs (st (ticking utcTimeString))) = map Number_toString ts
    /\ map log_timestamp (logs (st (ticking utcTimeString))) = map utcTimeString ts
    /\ StronglySorted Z.ge ts
    /\ Forall (fun t => t <= now (ticking utcTimeString)) ts.
Proof.
  exact (proj1 (log_ids_follow_clock utcTimeString (ticking utcTimeString)
                  reachable_ticking)).
Defined.

(** The loop of the acknowledged campaign, fired when due. *)
Lemma tick_issues_one_request_witness :
  let w := step utcTimeString (polling utcTimeString) (elapse 5000) in
  let t := mkTimer 1%positive 6000 (Some 5000) (pollCallback "contacts.csv") in
  requests (step utcTimeString w (timerFired 1%positive))
  = statusRequest 1%positive "contacts.csv" :: requests w
  /\ pollers (step utcTimeString w (timerFired 1%positive))
     = [mkTimer 1%positive 11000 (Some 5000) (pollCallback "contacts.csv")].
Proof.
  intros w t.
  assert (Hr : reachable utcTimeString w).
  { constructor. unfold polling, uploading.
    repeat apply reachable_run. apply reachable_init. }
  assert (Hin : In t (pollers w)) by (vm_compute; left; reflexivity).
  assert (Hdue : timer_due t <= now w) by (vm_compute; discriminate).
  destruct (tick_issues_one_request utcTimeString w t "contacts.csv" Hr Hin eq_refl)
    as [_ H].
  destruct (H Hdue) as [E Hp]. cbn [timer_id timer_due t] in E, Hp.
  split; [rewrite E; reflexivity|exact Hp].
Defined.

Lemma handle_names_armed_loop_witness :
  pollingInterval (st (ticking utcTimeString)) = Some 1%positive
  <-> exists t, pollers (ticking utcTimeString) = [t] /\ timer_id t = 1%positive.
Proof.
  exact (proj1 (handle_names_armed_loop utcTimeString (ticking utcTimeString)
                  1%positive reachable_ticking)).
Defined.

Lemma visible_toast_has_timer_witness :
  exists t, toastTimers (polling utcTimeString) = [t]
    /\ timer_repeat t = None
    /\ timer_due t <= now (polling utcTimeString) + 3000.
Proof.
  assert (Hr : reachable utcTimeString (polling utcTimeString)).
  { unfold polling, uploading. repeat apply reachable_run. apply reachable_init. }
  pose proof (visible_toast_has_timer utcTimeString (polling utcTimeString) Hr) as H.
  assert (Hty : toast_type (toast (st (polling utcTimeString))) = Some toastSuccess)
    by (vm_compute; reflexivity).
  rewrite Hty in H. destruct H as (t & H1 & H2 & H3 & _).
  exists t. auto.
Defined.

Lemma unmount_clears_timers_witness :
  timers (exec unmount (ticking utcTimeString)) = [].
Proof.
  exact (unmount_clears_timers utcTimeString (ticking utcTimeString)
           reachable_ticking).
Defined.

Lemma toast_texts_witness :
  In (toast (st (ticking utcTimeString))) toastTexts
  /\ In (toast (st (exec (handleSendMessages utcTimeString initialState ;; commit)
                      (ticking utcTimeString)))) toastTexts.
Proof.
  destruct (toast_texts utcTimeString (ticking utcTimeString) reachable_ticking)
    as [H1 H2].
  split; [exact H1|exact (H2 initialState)].
Defined.

(** [contacts.csv] is sent; while the request is in flight [notes.txt]
    is offered and the template name is edited. *)
Lemma campaign_tracks_submitted_file_witness :
  let w := step utcTimeString (init 1000) (selectFile contacts) in
  let es := [selectFile notes; changeTemplateName "promo1"; elapse 700] in
  let w1 := run utcTimeString (step utcTimeString w clickSend) es in
  let w' := step utcTimeString w1 (uploadSettled (nextRequest w) queued) in
  campaignStatus (st w')
  = Some (mkCampaignStatus "contacts.csv" "processing" None None None None None)
  /\ pollers w'
     = [mkTimer (nextTimer w1) (now w1 + 5000) (Some 5000)
          (pollCallback "contacts.csv")].
Proof.
  intros w es w1 w'.
  assert (Hr : reachable utcTimeString w) by (repeat constructor).
  assert (Hf : file (st w) = Some contacts) by (vm_compute; reflexivity).
  assert (Hl : isLoading (st w) = false) by (vm_compute; reflexivity).
  destruct (campaign_tracks_submitted_file utcTimeString w contacts es queued
              (mkUploadData (Some "queued") None) Hr Hf Hl eq_refl eq_refl)
    as (_ & H1 & H2).
  split; [exact H1|exact H2].
Defined.

(** * The attachments variant: properties *)

Section Attachments.

Import AttachmentsPage.

Local Open Scope Z_scope.

Lemma run_snoc (p : Page) (es : list Event) (e : Event) :
  run p (es ++ [e]) = step (run p es) e.
Proof. unfold run. rewrite fold_left_app. reflexivity. Qed.

(** An invariant of every step holds after every run. *)
Lemma run_invariant (P : Page -> Prop) (es : list Event) :
  (forall p e, In e es -> P p -> P (step p e)) ->
  forall p, P p -> P (run p es).
Proof.
  induction es as [|e es IH]; intros Hstep p Hp; [exact Hp|].
  cbn. apply IH.
  - intros q e' Hin. apply Hstep. right. exact Hin.
  - apply Hstep; [left; reflexivity|exact Hp].
Qed.

Lemma fold_size (l : list File) (a : Z) :
  fold_left (fun acc file => acc + file_size file) l a = a + totalSize l.
Proof.
  unfold totalSize. revert a.
  induction l as [|f l IH]; intros a; cbn; [lia|].
  rewrite IH, (IH (file_size f)). lia.
Qed.

Lemma totalSize_cons (f : File) (l : list File) :
  totalSize (f :: l) = file_size f + totalSize l.
Proof. unfold totalSize at 1. cbn. apply fold_size. Qed.

Lemma totalSize_app (l l' : list File) :
  totalSize (l ++ l') = totalSize l + totalSize l'.
Proof.
  induction l as [|f l IH]; [reflexivity|].
  cbn [app]. rewrite !totalSize_cons, IH. lia.
Qed.

Lemma filterIndex_In {A} (keep : nat -> bool) (l : list A) :
  forall i a, In a (filterIndex keep i l) -> In a l.
Proof.
  induction l as [|b l IH]; intros i a Hin; [exact Hin|].
  cbn in Hin. destruct (keep i).
  - destruct Hin as [->|Hin]; [left; reflexivity|right; eauto].
  - right; eauto.
Qed.

Lemma filterIndex_size (keep : nat -> bool) (l : list File) :
  (forall f, In f l -> 0 <= file_size f) ->
  forall i, totalSize (filterIndex keep i l) <= totalSize l.
Proof.
  induction l as [|f l IH]; intros Hl i; [cbn; lia|].
  assert (H0 : 0 <= file_size f) by (apply Hl; left; reflexivity).
  assert (Hi : totalSize (filterIndex keep (S i) l) <= totalSize l)
    by (apply IH; intros g Hg; apply Hl; right; exact Hg).
  cbn [filterIndex]. destruct (keep i); rewrite ?totalSize_cons; lia.
Qed.

Lemma filterIndex_shift {A} (index : nat) (l : list A) :
  forall i,
    filterIndex (fun j => negb (Nat.eqb j (i + index))) i l
    = (firstn index l ++ skipn (S index) l)%list.
Proof.
  revert l. induction index as [|index IH]; intros l i.
  - destruct l as [|a l]; [reflexivity|].
    cbn [filterIndex firstn skipn app]. rewrite Nat.add_0_r, Nat.eqb_refl.
    cbn [negb]. clear a. generalize (Nat.lt_succ_diag_r i).
    generalize (S i) as j. induction l as [|a l IHl]; intros j Hj;
      [reflexivity|].
    cbn [filterIndex]. destruct (Nat.eqb_spec j i) as [->|_]; [lia|].
    cbn [negb]. f_equal. apply IHl. lia.
  - destruct l as [|a l]; [reflexivity|].
    cbn [filterIndex firstn skipn app].
    destruct (Nat.eqb_spec i (i + S index)) as [E|_]; [lia|].
    cbn [negb]. f_equal.
    replace (i + S index)%nat with (S i + index)%nat by lia. apply IH.
Qed.

Lemma handleFileChange_frame (files : option (list File)) (p : Page) :
  let q := handleFileChange files p in
  attachments q = attachments p /\ uploading q = uploading p
  /\ uploadProgress q = uploadProgress p /\ isSending q = isSending p
  /\ intervals q = intervals p /\ sending q = sending p.
Proof.
  unfold handleFileChange. destruct (firstFile files) as [f|];
    [destruct (negb _)|]; cbn; repeat split.
Qed.

Lemma handleAttachmentChange_frame (files : option (list File)) (p : Page) :
  let q := handleAttachmentChange files p in
  file q = file p /\ uploading q = uploading p
  /\ uploadProgress q = uploadProgress p /\ isSending q = isSending p
  /\ intervals q = intervals p /\ sending q = sending p.
Proof.
  unfold handleAttachmentChange. destruct files as [[|f l]|];
    [| destruct (_ >? _) |]; cbn; repeat split.
Qed.

(** Attachments are accepted all or nothing against the 20 MB
    limit, and removing one never raises the total: whatever the user
    does, the attachments held by the page weigh at most 20 * 1024 * 1024
    bytes, provided no offered file reports a negative size. *)
Theorem attachments_within_limit (es : list Event) :
  (forall e f, In e es -> In f (offered e) -> 0 <= file_size f) ->
  totalSize (attachments (run init es)) <= 20 * 1024 * 1024.
Proof.
  intros Hes.
  enough (H : (forall f, In f (attachments (run init es)) -> 0 <= file_size f)
              /\ totalSize (attachments (run init es)) <= 20 * 1024 * 1024)
    by apply H.
  apply (run_invariant
           (fun p => (forall f, In f (attachments p) -> 0 <= file_size f)
                     /\ totalSize (attachments p) <= 20 * 1024 * 1024));
    [|split; [intros f []|cbn; lia]].
  intros p e Hin [Hpos Hfit]. specialize (Hes e).
  destruct e as [files|files|index| | | |]; cbn [step].
  - destruct (handleFileChange_frame files p) as (-> & _). split; assumption.
  - unfold handleAttachmentChange.
    destruct files as [[|f l]|]; [split; assumption| |split; assumption].
    destruct (_ >? _) eqn:Hbig; [split; assumption|].
    cbn [toast setAttachments attachments]. split.
    + intros g Hg. apply in_app_or in Hg. destruct Hg as [Hg|Hg];
        [apply Hpos; exact Hg|apply (Hes g Hin); exact Hg].
    + rewrite Z.gtb_ltb in Hbig. apply Z.ltb_ge in Hbig. exact Hbig.
  - cbn [removeAttachment setAttachments attachments]. split.
    + intros g Hg. apply Hpos. eapply filterIndex_In. exact Hg.
    + etransitivity; [apply filterIndex_size; exact Hpos|exact Hfit].
  - unfold handleUpload. destruct (file p); split; assumption.
  - unfold progressTick. destruct (intervals p); [split; assumption|].
    destruct (_ >=? _); split; assumption.
  - unfold handleSendMessages. destruct (file p); split; assumption.
  - unfold sendTimeout. destruct (sending p); split; assumption.
Qed.

(** [removeAttachment index] drops exactly the attachment at that
    position and keeps the others in their order; an index past the end
    leaves the list as it is. *)
Theorem removeAttachment_drops_position (index : nat) (p : Page) :
  attachments (removeAttachment index p)
  = (firstn index (attachments p) ++ skipn (S index) (attachments p))%list
  /\ List.length (attachments (removeAttachment index p))
     = if (index <? List.length (attachments p))%nat
       then pred (List.length (attachments p))
       else List.length (attachments p).
Proof.
  assert (E : attachments (removeAttachment index p)
              = (firstn index (attachments p)
                 ++ skipn (S index) (attachments p))%list)
    by apply (filterIndex_shift index (attachments p) 0).
  split; [exact E|]. rewrite E.
  rewrite length_app, length_firstn, length_skipn.
  destruct (Nat.ltb_spec index (List.length (attachments p))); lia.
Qed.

Lemma progress_ticks (p : Page) (k : nat) :
  intervals p = 1%nat -> uploading p = true -> uploadProgress p = 0 ->
  (k <= 10)%nat ->
  let q := run p (repeat progressFired k) in
  uploadProgress q = 10 * Z.of_nat k /\ uploading q = true
  /\ intervals q = 1%nat /\ notices q = notices p /\ file q = file p
  /\ attachments q = attachments p.
Proof.
  intros Hi Hu Hp. induction k as [|k IH]; intros Hk q.
  - subst q. cbn. repeat split; assumption.
  - subst q.
    assert (E : repeat progressFired (S k)
                = (repeat progressFired k ++ [progressFired])%list)
      by (rewrite <- repeat_cons; reflexivity).
    rewrite E, run_snoc.
    destruct IH as (Ep & Eu & Ei & En & Ef & Ea); [lia|].
    cbn [step]. unfold progressTick. rewrite Ei.
    destruct (Z.geb_spec (uploadProgress (run p (repeat progressFired k))) 100)
      as [Hge|_]; [lia|].
    cbn [uploadProgress uploading intervals notices file attachments].
    rewrite Ep. repeat split; try assumption. lia.
Qed.

(** The simulated processing run: from a page with a selected file
    and no run under way, [handleUpload] starts at 0; each of the first
    ten firings of its interval adds 10, so the bar reaches 100 while the
    page is still uploading; the eleventh firing ends the run, with one
    "File processed" notice, and clears the interval, so that nothing
    fires afterwards. *)
Theorem upload_run_ends_on_eleventh_tick (p : Page) (f : File) (k : nat) :
  file p = Some f -> intervals p = 0%nat -> (k <= 10)%nat ->
  let q := run (handleUpload p) (repeat progressFired k) in
  let done := run (handleUpload p) (repeat progressFired 11) in
  (uploadProgress q = 10 * Z.of_nat k /\ uploading q = true
   /\ notices q = notices p)
  /\ uploadProgress done = 100 /\ uploading done = false
  /\ intervals done = 0%nat
  /\ notices done
     = mkNotice "File processed"
         "Your CSV file has been processed successfully" false :: notices p
  /\ progressTick done = done.
Proof.
  intros Hf Hi Hk q done.
  assert (Hstart : intervals (handleUpload p) = 1%nat
                   /\ uploading (handleUpload p) = true
                   /\ uploadProgress (handleUpload p) = 0
                   /\ notices (handleUpload p) = notices p).
  { unfold handleUpload. rewrite Hf. cbn. rewrite Hi. repeat split. }
  destruct Hstart as (Si & Su & Sp & Sn).
  split.
  - destruct (progress_ticks (handleUpload p) k Si Su Sp Hk)
      as (Ep & Eu & _ & En & _).
    subst q. rewrite En, Sn. repeat split; assumption.
  - destruct (progress_ticks (handleUpload p) 10 Si Su Sp (Nat.le_refl _))
      as (Ep & Eu & Ei & En & _).
    assert (Ed : done = progressTick (run (handleUpload p)
                                        (repeat progressFired 10))).
    { subst done. change 11%nat with (10 + 1)%nat.
      rewrite repeat_app. cbn [repeat]. rewrite run_snoc. reflexivity. }
    rewrite Ed. clear Ed done q.
    set (r := run (handleUpload p) (repeat progressFired 10)) in *.
    assert (Et : progressTick r
                 = toast (mkNotice "File processed"
                            "Your CSV file has been processed successfully"
                            false)
                     (mkPage (file r) (attachments r) false 100 (isSending r)
                        0 (sending r) (notices r))).
    { unfold progressTick. rewrite Ei.
      destruct (Z.geb_spec (uploadProgress r) 100) as [_|Hlt]; [reflexivity|].
      change (Z.of_nat 10) with 10 in Ep. lia. }
    rewrite Et. clearbody r.
    cbn [toast uploadProgress uploading intervals notices].
    rewrite En, Sn. repeat split.
Qed.

(** Over any run of the page the bar stays within 0..100 (in steps
    of 10), the page shows "uploading" only while a progress interval is
    armed, and "sending" only while a timeout of [handleSendMessages] is
    pending: a busy flag is never left without the timer that resets it. *)
Theorem busy_flags_have_timers (es : list Event) :
  let p := run init es in
  0 <= uploadProgress p <= 100
  /\ (uploadProgress p mod 10 = 0)
  /\ (uploading p = true -> (0 < intervals p)%nat)
  /\ (isSending p = true -> sending p <> []).
Proof.
  apply (run_invariant
           (fun p => 0 <= uploadProgress p <= 100
                     /\ (uploadProgress p mod 10 = 0)
                     /\ (uploading p = true -> (0 < intervals p)%nat)
                     /\ (isSending p = true -> sending p <> [])));
    [|cbn; repeat split; try lia; discriminate].
  intros p e _ (Hb & Hm & Hu & Hs).
  destruct e as [files|files|index| | | |]; cbn [step].
  - destruct (handleFileChange_frame files p) as (_ & -> & -> & -> & -> & ->).
    repeat split; try assumption; apply Hb.
  - destruct (handleAttachmentChange_frame files p)
      as (_ & -> & -> & -> & -> & ->).
    repeat split; try assumption; apply Hb.
  - cbn. repeat split; try assumption; apply Hb.
  - unfold handleUpload. destruct (file p); cbn;
      repeat split; try assumption; try apply Hb; try lia.
  - unfold progressTick. destruct (intervals p) as [|n] eqn:Hn;
      [repeat split; try assumption; try apply Hb; rewrite Hn; assumption|].
    destruct (Z.geb_spec (uploadProgress p) 100) as [Hge|Hlt]; cbn.
    + repeat split; try assumption; try lia; discriminate.
    + assert (Hk : uploadProgress p = 10 * (uploadProgress p / 10))
        by (apply Z.div_exact; [lia|exact Hm]).
      repeat split; try assumption; try lia.
      rewrite Hk. replace (10 * (uploadProgress p / 10) + 10)
        with ((uploadProgress p / 10 + 1) * 10) by lia.
      apply Z.mod_mul. lia.
  - unfold handleSendMessages. destruct (file p); cbn;
      repeat split; try assumption; try apply Hb.
    intros _ E. apply app_eq_nil in E. destruct E as [_ E]. discriminate.
  - unfold sendTimeout. destruct (sending p) as [|n rest] eqn:Hn;
      [repeat split; try assumption; try apply Hb; rewrite Hn; assumption|].
    cbn. repeat split; try assumption; try apply Hb. discriminate.
Qed.

(** The file the page holds is always a [.csv], whatever has been
    chosen, added, removed or clicked before. *)
Theorem selected_file_is_csv (es : list Event) :
  match file (run init es) with
  | Some f => endsWith (file_name f) ".csv" = true
  | None => True
  end.
Proof.
  apply (run_invariant
           (fun p => match file p with
                     | Some f => endsWith (file_name f) ".csv" = true
                     | None => True
                     end)); [|exact I].
  intros p e _ Hp.
  destruct e as [files|files|index| | | |]; cbn [step].
  - unfold handleFileChange. destruct (firstFile files) as [f|]; [|exact I].
    destruct (endsWith (file_name f) ".csv") eqn:Hcsv; cbn; assumption.
  - destruct (handleAttachmentChange_frame files p) as (-> & _). exact Hp.
  - exact Hp.
  - replace (file (handleUpload p)) with (file p); [exact Hp|].
    unfold handleUpload. destruct (file p) eqn:E; [reflexivity|].
    symmetry; exact E.
  - replace (file (progressTick p)) with (file p); [exact Hp|].
    unfold progressTick. destruct (intervals p); [reflexivity|].
    destruct (_ >=? _); reflexivity.
  - replace (file (handleSendMessages p)) with (file p); [exact Hp|].
    unfold handleSendMessages. destruct (file p) eqn:E; [reflexivity|].
    symmetry; exact E.
  - replace (file (sendTimeout p)) with (file p); [exact Hp|].
    unfold sendTimeout. destruct (sending p); reflexivity.
Qed.

Lemma sending_head_kept (es : list Event) :
  ~ In sendFired es ->
  forall p n rest, sending p = n :: rest ->
  exists rest', sending (run p es) = n :: rest'.
Proof.
  induction es as [|e es IH]; intros Hno p n rest Hs; [exists rest; exact Hs|].
  cbn [run fold_left].
  assert (Hstep : exists rest', sending (step p e) = n :: rest').
  { destruct e as [files|files|index| | | |]; cbn [step].
    - destruct (handleFileChange_frame files p) as (_ & _ & _ & _ & _ & ->).
      exists rest; exact Hs.
    - destruct (handleAttachmentChange_frame files p)
        as (_ & _ & _ & _ & _ & ->).
      exists rest; exact Hs.
    - exists rest; exact Hs.
    - unfold handleUpload. destruct (file p); exists rest; exact Hs.
    - unfold progressTick. destruct (intervals p); [exists rest; exact Hs|].
      destruct (_ >=? _); exists rest; exact Hs.
    - unfold handleSendMessages. destruct (file p); cbn; rewrite Hs;
        eexists; reflexivity.
    - exfalso. apply Hno. left. reflexivity. }
  destruct Hstep as (rest' & Hs').
  apply (IH (fun H => Hno (or_intror H)) _ _ _ Hs').
Qed.

(** The "Messages queued" notice speaks for the attachments of the
    click, not of the moment it appears: whatever is added or removed
    while the send is pending, the notice says "with attachments" exactly
    when the list was non-empty as Send was pressed. *)
Theorem send_notice_uses_attachments_at_click (p : Page) (f : File)
    (es : list Event) :
  file p = Some f -> sending p = [] -> ~ In sendFired es ->
  notices (run p (sendClick :: es ++ [sendFired]))
  = mkNotice "Messages queued"
      ((if (0 <? List.length (attachments p))%nat
        then "Messages with attachments" else "Messages")
       ++ " have been queued for sending") false
    :: notices (run p (sendClick :: es)).
Proof.
  intros Hf Hs Hno.
  change (sendClick :: es ++ [sendFired])
    with ((sendClick :: es) ++ [sendFired])%list.
  rewrite run_snoc. cbn [step].
  assert (Hq : exists rest',
             sending (run p (sendClick :: es))
             = List.length (attachments p) :: rest').
  { cbn [run fold_left step].
    apply (sending_head_kept es Hno (handleSendMessages p) _ []).
    unfold handleSendMessages. rewrite Hf. cbn. rewrite Hs. reflexivity. }
  destruct Hq as (rest' & Hq).
  unfold sendTimeout. rewrite Hq. reflexivity.
Qed.

Lemma split_nonempty (s : string) : split s <> [].
Proof.
  destruct s as [|c s]; cbn; [discriminate|].
  destruct (Ascii.eqb c "."); [discriminate|].
  destruct (split s); discriminate.
Qed.

Lemma split_dot (p q : string) :
  split (p ++ String "." q) = (split p ++ split q)%list.
Proof.
  induction p as [|c p IH]; [reflexivity|].
  cbn [String.append split]. rewrite IH.
  destruct (Ascii.eqb c "."); [reflexivity|].
  pose proof (split_nonempty p) as Hp.
  destruct (split p) as [|seg rest]; [contradiction|reflexivity].
Qed.

Lemma pop_app (l l' : list string) : l' <> [] -> pop (l ++ l') = pop l'.
Proof.
  intros Hl'. induction l as [|a l IH]; [reflexivity|].
  cbn [app pop]. destruct (l ++ l')%list as [|b m] eqn:E; [|exact IH].
  apply app_eq_nil in E. destruct E as [_ E]. contradiction.
Qed.

Lemma pop_map (g : string -> string) (l : list string) :
  pop (map g l) = option_map g (pop l).
Proof.
  induction l as [|a l IH]; [reflexivity|].
  cbn [map pop]. destruct l as [|b l]; [reflexivity|exact IH].
Qed.

Lemma lowerAscii_dot (c : ascii) :
  Ascii.eqb (lowerAscii c) "." = Ascii.eqb c ".".
Proof. destruct c as [[] [] [] [] [] [] [] []]; reflexivity. Qed.

Lemma lowerAscii_twice (c : ascii) : lowerAscii (lowerAscii c) = lowerAscii c.
Proof. destruct c as [[] [] [] [] [] [] [] []]; reflexivity. Qed.

Lemma toLowerCase_twice (s : string) :
  toLowerCase (toLowerCase s) = toLowerCase s.
Proof.
  induction s as [|c s IH]; [reflexivity|].
  cbn. rewrite lowerAscii_twice, IH. reflexivity.
Qed.

Lemma split_toLowerCase (s : string) :
  split (toLowerCase s) = map toLowerCase (split s).
Proof.
  induction s as [|c s IH]; [reflexivity|].
  cbn [toLowerCase split]. rewrite lowerAscii_dot, IH.
  destruct (Ascii.eqb c "."); [reflexivity|].
  destruct (split s); reflexivity.
Qed.

(** [getFileIcon] looks only at what follows the last dot of the
    name: a prefix up to a dot never changes the icon, so a name without
    any dot is taken whole as its own extension. *)
Theorem getFileIcon_reads_last_segment (p q : string) :
  getFileIcon (p ++ "." ++ q) = getFileIcon q.
Proof.
  unfold getFileIcon. change ("." ++ q)%string with (String "." q).
  rewrite split_dot, (pop_app _ _ (split_nonempty q)). reflexivity.
Qed.

(** [getFileIcon] does not tell upper case from lower case. *)
Theorem getFileIcon_ignores_case (fileName : string) :
  getFileIcon (toLowerCase fileName) = getFileIcon fileName.
Proof.
  unfold getFileIcon.
  rewrite split_toLowerCase, pop_map.
  destruct (pop (split fileName)) as [e|]; [|reflexivity].
  cbn [option_map]. rewrite toLowerCase_twice. reflexivity.
Qed.

(** ** On concrete runs *)

(** The banner is taken, the film would pass the limit and is refused,
    the banner is removed, and the film then fits. *)
Lemma attachments_within_limit_witness :
  totalSize
    (attachments
       (run init [attachmentChange (Some [banner]);
                  attachmentChange (Some [film]);
                  removeClick 0;
                  attachmentChange (Some [film])]))
  <= 20 * 1024 * 1024
  /\ attachments
       (run init [attachmentChange (Some [banner]);
                  attachmentChange (Some [film]);
                  removeClick 0;
                  attachmentChange (Some [film])]) = [film].
Proof.
  split; [|reflexivity].
  apply (attachments_within_limit
           [attachmentChange (Some [banner]); attachmentChange (Some [film]);
            removeClick 0; attachmentChange (Some [film])]).
  intros e f [<-|[<-|[<-|[<-|[]]]]] Hf; cbn in Hf;
    repeat (destruct Hf as [<-|Hf]; [cbn; lia|]); destruct Hf.
Defined.

Lemma upload_run_ends_on_eleventh_tick_witness :
  let p := run init [fileChange (Some [campaign])] in
  let q := run (handleUpload p) (repeat progressFired 4) in
  let done := run (handleUpload p) (repeat progressFired 11) in
  (uploadProgress q = 10 * Z.of_nat 4 /\ uploading q = true
   /\ notices q = notices p)
  /\ uploadProgress done = 100 /\ uploading done = false
  /\ intervals done = 0%nat
  /\ notices done
     = mkNotice "File processed"
         "Your CSV file has been processed successfully" false :: notices p
  /\ progressTick done = done.
Proof.
  exact (upload_run_ends_on_eleventh_tick
           (run init [fileChange (Some [campaign])]) campaign 4
           eq_refl eq_refl ltac:(lia)).
Defined.

(** Send is pressed with the banner attached; the banner is removed
    before the timeout fires, and the notice still speaks of
    attachments. *)
Lemma send_notice_uses_attachments_at_click_witness :
  let p := run init [fileChange (Some [campaign]);
                     attachmentChange (Some [banner])] in
  attachments (run p [sendClick; removeClick 0]) = []
  /\ hd_error (notices (run p (sendClick :: [removeClick 0] ++ [sendFired])))
     = Some (mkNotice "Messages queued"
               "Messages with attachments have been queued for sending" false).
Proof.
  cbv zeta. split; [reflexivity|].
  rewrite (send_notice_uses_attachments_at_click
             (run init [fileChange (Some [campaign]);
                        attachmentChange (Some [banner])])
             campaign [removeClick 0] eq_refl eq_refl).
  - reflexivity.
  - intros [H|[]]. discriminate H.
Defined.

End Attachments.
